(** * ggda: generation of test data from struct types

    A shallow embedding of the package's two files: the [Generator]
    (New, SetDefaults, SetCustom, Generate, GenerateOne, fillStruct,
    autoFill, GenerateSlice, GenerateSliceWith, generatePrimitive) and the
    [Builder] (Build,
    With, WithDefaults, Generate, GenerateOne, generateSingle).

    The package works through Go's [reflect]; the part of [reflect] it
    touches is modelled first: kinds, type descriptors, values, the
    panics of [NumField], [Set], [SetInt] and [Interface], and [IsZero].
    A panic is a result of its own ([Panic]); the wall clock read by
    [time.Now] is an explicit counter threaded through generation. *)

From Stdlib Require Import ZArith String Ascii List Bool Lia.
From Stdlib Require Import DecimalString.
From Stdlib Require DecimalPos DecimalZ.
From Stdlib Require Import Floats.SpecFloat.
From stdpp Require Import base option list strings gmap.

Set Warnings "-register-all".

Local Open Scope string_scope.
Local Open Scope Z_scope.

(** ** Machine integers *)

(** A [w]-bit unsigned integer keeps the low [w] bits. *)
Definition wrap_unsigned (w x : Z) : Z := x mod 2 ^ w.

(** A [w]-bit signed integer, two's complement. *)
Definition wrap_signed (w x : Z) : Z :=
  (x + 2 ^ (w - 1)) mod 2 ^ w - 2 ^ (w - 1).

(** Go's [int] is taken to be 64 bits wide. *)
Definition int_add (a b : Z) : Z := wrap_signed 64 (a + b).

(** The conversions [int64(x)] and [uint64(x)] of an [int]. *)
Definition int64 (x : Z) : Z := wrap_signed 64 x.
Definition uint64 (x : Z) : Z := wrap_unsigned 64 x.

(** ** float64 *)

Definition f64_mul : spec_float -> spec_float -> spec_float := SFmul 53 1024.

(** [float64(x)] of an integer: round to nearest, ties to even. *)
Definition float64_of_int (x : Z) : spec_float := binary_normalize 53 1024 x 0 false.

(** The constant [1.1] as a float64, 0x3FF199999999999A. *)
Definition f64_1_1 : spec_float := S754_finite false 4953959590107546 (-52).

(** The conversion [float32(x)] of a float64. *)
Definition float32_of_float64 (x : spec_float) : spec_float :=
  match x with
  | S754_finite s m e => binary_normalize 24 128 (if s then Z.neg m else Z.pos m) e s
  | _ => x
  end.

(** ** Strings *)

(** [%d] of [fmt.Sprintf]. *)
Definition itoa (n : Z) : string := NilZero.string_of_int (Z.to_int n).

(** [fmt.Sprintf("%s_%d", s, n)]. *)
Definition Sprintf_s_d (s : string) (n : Z) : string := s ++ "_" ++ itoa n.

Definition lowerByte (c : ascii) : ascii :=
  let n := N_of_ascii c in
  if ((65 <=? n) && (n <=? 90))%N then ascii_of_N (n + 32) else c.

Fixpoint isASCII (s : string) : bool :=
  match s with
  | EmptyString => true
  | String c r => (N_of_ascii c <? 128)%N && isASCII r
  end.

Fixpoint mapBytes (f : ascii -> ascii) (s : string) : string :=
  match s with
  | EmptyString => EmptyString
  | String c r => String (f c) (mapBytes f r)
  end.

(** Substring test, for statements about what a message mentions. *)
Fixpoint contains (s sub : string) : bool :=
  String.prefix sub s ||
  match s with
  | EmptyString => false
  | String _ r => contains r sub
  end.

(** ** reflect: kinds and type descriptors *)

Module Kind.
Inductive t : Set :=
| Invalid | Bool
| Int | Int8 | Int16 | Int32 | Int64
| Uint | Uint8 | Uint16 | Uint32 | Uint64 | Uintptr
| Float32 | Float64 | Complex64 | Complex128
| Array | Chan | Func | Interface | Map | Pointer | Slice
| String | Struct | UnsafePointer.

Definition eqb (a b : t) : bool :=
  match a, b with
  | Invalid, Invalid | Bool, Bool
  | Int, Int | Int8, Int8 | Int16, Int16 | Int32, Int32 | Int64, Int64
  | Uint, Uint | Uint8, Uint8 | Uint16, Uint16 | Uint32, Uint32
  | Uint64, Uint64 | Uintptr, Uintptr
  | Float32, Float32 | Float64, Float64
  | Complex64, Complex64 | Complex128, Complex128
  | Array, Array | Chan, Chan | Func, Func | Interface, Interface
  | Map, Map | Pointer, Pointer | Slice, Slice
  | String, String | Struct, Struct | UnsafePointer, UnsafePointer => true
  | _, _ => false
  end.
End Kind.

(** A type descriptor: the printed form [String()], the kind, and for a
    struct type its fields in declaration order.  Two descriptors denote
    the same type when they are equal. *)
Inductive rtype : Type :=
| MkType (str : string) (kind : Kind.t) (fields : list StructField)
with StructField : Type :=
| MkField (name : string) (exported : bool) (typ : rtype).

Definition TypeString (t : rtype) : string := let 'MkType s _ _ := t in s.
Definition TypeKind (t : rtype) : Kind.t := let 'MkType _ k _ := t in k.
Definition TypeFields (t : rtype) : list StructField := let 'MkType _ _ fs := t in fs.

Definition Name (f : StructField) : string := let 'MkField n _ _ := f in n.
Definition IsExported (f : StructField) : bool := let 'MkField _ e _ := f in e.
Definition Type_ (f : StructField) : rtype := let 'MkField _ _ t := f in t.

Fixpoint rtype_eqb (a b : rtype) {struct a} : bool :=
  match a, b with
  | MkType s k fs, MkType s' k' fs' =>
      String.eqb s s' && Kind.eqb k k' &&
      (fix go (l l' : list StructField) {struct l} : bool :=
         match l, l' with
         | [], [] => true
         | f :: r, f' :: r' => field_eqb f f' && go r r'
         | _, _ => false
         end) fs fs'
  end
with field_eqb (f g : StructField) {struct f} : bool :=
  match f, g with
  | MkField n e t, MkField n' e' t' =>
      String.eqb n n' && Bool.eqb e e' && rtype_eqb t t'
  end.

(** The predeclared types and [time.Time]. *)
Definition basic (s : string) (k : Kind.t) : rtype := MkType s k [].

Definition timeType : rtype :=
  MkType "time.Time" Kind.Struct
    [ MkField "wall" false (basic "uint64" Kind.Uint64);
      MkField "ext" false (basic "int64" Kind.Int64);
      MkField "loc" false (basic "*time.Location" Kind.Pointer) ].

(** ** reflect: values *)

(** Values of the kinds the package inspects are explicit.  Values of the
    remaining kinds (complex, array, chan, func, map, pointer, slice,
    unsafe pointer) are opaque: [VOther] keeps what [IsZero] reports of
    the value, and a printed form. *)
Inductive Value : Type :=
| VBool (b : bool)
| VInt (n : Z)
| VUint (n : Z)
| VFloat (x : spec_float)
| VString (s : string)
| VStruct (fs : list Value)
| VNilIface
| VIface (t : rtype) (v : Value)
| VOther (iszero : bool) (repr : string).

(** An [interface{}]: nil, or a dynamic type with its value. *)
Abbreviation Dyn := (option (rtype * Value)) (only parsing).

(** The zero value of a type, [var x T]. *)
Fixpoint Zero (t : rtype) {struct t} : Value :=
  match t with
  | MkType _ k fs =>
      match k with
      | Kind.Bool => VBool false
      | Kind.Int | Kind.Int8 | Kind.Int16 | Kind.Int32 | Kind.Int64 => VInt 0
      | Kind.Uint | Kind.Uint8 | Kind.Uint16 | Kind.Uint32 | Kind.Uint64
      | Kind.Uintptr => VUint 0
      | Kind.Float32 | Kind.Float64 => VFloat (S754_zero false)
      | Kind.String => VString ""
      | Kind.Interface => VNilIface
      | Kind.Struct =>
          VStruct ((fix go (l : list StructField) : list Value :=
                      match l with
                      | [] => []
                      | MkField _ _ ft :: r => Zero ft :: go r
                      end) fs)
      | _ => VOther true ""
      end
  end.

(** [Value.IsZero] of a value of type [t]: the value equals the zero
    value of its type.  A float is zero when it compares equal to zero,
    so negative zero is; a struct is zero when every field not named [_]
    is.  (Field values beyond the fields of the type, which no value of
    the type has, are tested at the type itself.) *)
Fixpoint IsZero (t : rtype) (v : Value) {struct v} : bool :=
  match v with
  | VBool b => negb b
  | VInt n => (n =? 0)%Z
  | VUint n => (n =? 0)%Z
  | VFloat (S754_zero _) => true
  | VFloat _ => false
  | VString s => String.eqb s ""
  | VStruct vs =>
      (fix go (fs : list StructField) (vs : list Value) {struct vs} : bool :=
         match vs with
         | [] => true
         | x :: vs' =>
             match fs with
             | MkField n _ ft :: fs' =>
                 (String.eqb n "_" || IsZero ft x) && go fs' vs'
             | [] => IsZero t x && go [] vs'
             end
         end) (TypeFields t) vs
  | VNilIface => true
  | VIface _ _ => false
  | VOther z _ => z
  end.

(** ** Panics *)

Inductive PanicValue : Type :=
| ValueError (method : string) (kind : Kind.t)   (* *reflect.ValueError *)
| PanicMsg (msg : string)                        (* panic(string) *)
| RuntimeError (msg : string).                   (* runtime.Error *)

Inductive Result (A : Type) : Type :=
| Ok (a : A)
| Panic (p : PanicValue).
Arguments Ok {A} a.
Arguments Panic {A} p.

Definition rbind {A B} (r : Result A) (k : A -> Result B) : Result B :=
  match r with
  | Ok a => k a
  | Panic p => Panic p
  end.

(** ** Generation steps: a panic, or a result and the clock's new state

    The state is the number of readings taken of the wall clock. *)

Definition M (A : Type) : Type := nat -> Result (A * nat).

Definition ret {A} (a : A) : M A := fun s => Ok (a, s).

Definition bind {A B} (m : M A) (k : A -> M B) : M B :=
  fun s => match m s with
           | Ok (a, s') => k a s'
           | Panic p => Panic p
           end.

Definition lift {A} (r : Result A) : M A :=
  fun s => match r with
           | Ok a => Ok (a, s)
           | Panic p => Panic p
           end.

Notation "x <- m ;; k" := (bind m (fun x => k))
  (at level 100, m at next level, right associativity).

(** [for i := 0; i < count; i++ { a = body i a }], the trip count given. *)
Fixpoint loop {A} (n : nat) (i : Z) (body : Z -> A -> M A) (a : A) : M A :=
  match n with
  | O => ret a
  | S n' => a' <- body i a ;; loop n' (i + 1) body a'
  end.

Definition for_lt {A} (count : Z) (body : Z -> A -> M A) (a : A) : M A :=
  loop (Z.to_nat count) 0 body a.

(** ** What the host provides

    Four facilities of the Go runtime and library are taken as given:
    the Unicode lower-casing of a string that is not pure ASCII, the
    assignability of a value of one type to a different type (unnamed and
    interface types), the readings of the wall clock as the two words
    [wall] and [ext] of a [time.Time], and for each element type the
    largest length at which [make] returns a slice.  That length depends
    on the size of the type and on the memory of the machine; it is at
    least one, as a single value of the type always exists. *)
Class Host : Type := {
  unicode_ToLower : string -> string;
  assignable_rule : rtype -> rtype -> bool;
  wall_clock : nat -> Z * Z;
  make_limit : rtype -> positive;
}.

(** ** The generator's state *)

(** A custom generator is taken to be a function of the index alone, as
    the specification types it ([(index) -> value]); it may panic. *)
Record Generator : Type := {
  defaults : gmap string Dyn;
  customs : gmap string (Z -> Result Dyn);
}.

(** A modifier receives the instance and the index and updates the
    instance; it may panic. *)
Record Builder : Type := {
  gen : Generator;
  modifiers : list (Value -> Z -> Result Value);
}.

Section Model.
Context {host : Host}.

(** [strings.ToLower]. *)
Definition ToLower (s : string) : string :=
  if isASCII s then mapBytes lowerByte s else unicode_ToLower s.

(** [time.Now()]. *)
Definition timeValue (t : Z * Z) : Value :=
  VStruct [VUint (fst t); VInt (snd t); VOther false "time.Local"].

Definition time_Now : M Value :=
  fun s => Ok (timeValue (wall_clock s), S s).

(** *** reflect: the operations used *)

(** [v.NumField()]. *)
Definition NumField (t : rtype) : Result nat :=
  match TypeKind t with
  | Kind.Struct => Ok (length (TypeFields t))
  | k => Panic (ValueError "reflect.Value.NumField" k)
  end.

(** [field.CanSet()] for a field of an addressable struct. *)
Definition CanSet (f : StructField) : bool := IsExported f.

(** Whether a value of type [V] can be assigned to a location of type [T]. *)
Definition AssignableTo (V T : rtype) : bool :=
  rtype_eqb T V || assignable_rule V T.

(** [field.Set(reflect.ValueOf(x))] on a settable field of type [T]:
    the value the field holds afterwards. *)
Definition Value_Set (T : rtype) (x : Dyn) : Result Value :=
  match x with
  | None => Panic (ValueError "reflect.Value.Set" Kind.Invalid)
  | Some (V, xv) =>
      if rtype_eqb T V then Ok xv
      else if assignable_rule V T then
        match TypeKind T with
        | Kind.Interface => Ok (VIface V xv)
        | _ => Ok xv
        end
      else Panic (PanicMsg ("reflect.Set: value of type " ++ TypeString V
                            ++ " is not assignable to type " ++ TypeString T))
  end.

Definition SetString (k : Kind.t) (x : string) : Result Value :=
  match k with
  | Kind.String => Ok (VString x)
  | _ => Panic (ValueError "reflect.Value.SetString" k)
  end.

Definition SetInt (k : Kind.t) (x : Z) : Result Value :=
  match k with
  | Kind.Int => Ok (VInt (wrap_signed 64 x))
  | Kind.Int8 => Ok (VInt (wrap_signed 8 x))
  | Kind.Int16 => Ok (VInt (wrap_signed 16 x))
  | Kind.Int32 => Ok (VInt (wrap_signed 32 x))
  | Kind.Int64 => Ok (VInt (wrap_signed 64 x))
  | _ => Panic (ValueError "reflect.Value.SetInt" k)
  end.

Definition SetUint (k : Kind.t) (x : Z) : Result Value :=
  match k with
  | Kind.Uint => Ok (VUint (wrap_unsigned 64 x))
  | Kind.Uint8 => Ok (VUint (wrap_unsigned 8 x))
  | Kind.Uint16 => Ok (VUint (wrap_unsigned 16 x))
  | Kind.Uint32 => Ok (VUint (wrap_unsigned 32 x))
  | Kind.Uint64 => Ok (VUint (wrap_unsigned 64 x))
  | Kind.Uintptr => Ok (VUint (wrap_unsigned 64 x))
  | _ => Panic (ValueError "reflect.Value.SetUint" k)
  end.

Definition SetFloat (k : Kind.t) (x : spec_float) : Result Value :=
  match k with
  | Kind.Float32 => Ok (VFloat (float32_of_float64 x))
  | Kind.Float64 => Ok (VFloat x)
  | _ => Panic (ValueError "reflect.Value.SetFloat" k)
  end.

Definition SetBool (k : Kind.t) (x : bool) : Result Value :=
  match k with
  | Kind.Bool => Ok (VBool x)
  | _ => Panic (ValueError "reflect.Value.SetBool" k)
  end.

(** [field.Interface()] on the field [f] of a struct, holding [v]. *)
Definition Interface (f : StructField) (v : Value) : Result Dyn :=
  if negb (IsExported f) then
    Panic (PanicMsg "reflect.Value.Interface: cannot return value obtained from unexported field or method")
  else
    match TypeKind (Type_ f) with
    | Kind.Interface =>
        Ok (match v with VIface t x => Some (t, x) | _ => None end)
    | _ => Ok (Some (Type_ f, v))
    end.

(** [reflect.ValueOf(x)] for [x] of static type [T]: the conversion to
    [interface{}] keeps the dynamic type of an interface value. *)
Definition ValueOf (T : rtype) (x : Value) : Dyn :=
  match TypeKind T with
  | Kind.Interface => match x with VIface t v => Some (t, v) | _ => None end
  | _ => Some (T, x)
  end.

(** The length check of [make([]T, count)]: the length is negative, or
    larger than the host can make. *)
Definition len_out_of_range (T : rtype) (count : Z) : bool :=
  (count <? 0) || (Z.pos (make_limit T) <? count).

(** [make([]T, count)]. *)
Definition make_slice (T : rtype) (count : Z) : Result (list Value) :=
  if len_out_of_range T count then Panic (RuntimeError "makeslice: len out of range")
  else Ok (replicate (Z.to_nat count) (Zero T)).

(** *** Generator *)

Definition New : Generator := {| defaults := ∅; customs := ∅ |}.

Definition SetDefaults (g : Generator) (fieldName : string) (value : Dyn) : Generator :=
  {| defaults := <[fieldName := value]> (defaults g); customs := customs g |}.

Definition SetCustom (g : Generator) (fieldName : string) (fn : Z -> Result Dyn) : Generator :=
  {| defaults := defaults g; customs := <[fieldName := fn]> (customs g) |}.

(** [autoFill]: the value written to the field, or [None] when the
    field is left as it is. *)
Definition autoFill (fieldType : StructField) (index : Z) : M (option Value) :=
  let k := TypeKind (Type_ fieldType) in
  match k with
  | Kind.String =>
      x <- lift (SetString k (Sprintf_s_d (ToLower (Name fieldType)) (int_add index 1))) ;;
      ret (Some x)
  | Kind.Int | Kind.Int8 | Kind.Int16 | Kind.Int32 | Kind.Int64 =>
      x <- lift (SetInt k (int64 (int_add index 1))) ;; ret (Some x)
  | Kind.Uint | Kind.Uint8 | Kind.Uint16 | Kind.Uint32 | Kind.Uint64 =>
      x <- lift (SetUint k (uint64 (int_add index 1))) ;; ret (Some x)
  | Kind.Float32 | Kind.Float64 =>
      x <- lift (SetFloat k (f64_mul (float64_of_int (int_add index 1)) f64_1_1)) ;;
      ret (Some x)
  | Kind.Bool =>
      x <- lift (SetBool k (Z.rem index 2 =? 0)) ;; ret (Some x)
  | Kind.Struct =>
      if rtype_eqb (Type_ fieldType) timeType then
        now <- time_Now ;;
        x <- lift (Value_Set (Type_ fieldType) (Some (timeType, now))) ;;
        ret (Some x)
      else ret None
  | _ => ret None
  end.

(** The body of [fillStruct]'s loop, from field [i] on; [vs] are the
    fields of the instance. *)
Fixpoint fillFields (g : Generator) (fs : list StructField) (i : nat)
         (index : Z) (vs : list Value) {struct fs} : M (list Value) :=
  match fs with
  | [] => ret vs
  | fieldType :: rest =>
      let fieldName := Name fieldType in
      if negb (CanSet fieldType) then fillFields g rest (S i) index vs
      else
        match customs g !! fieldName with
        | Some customFn =>
            x <- lift (customFn index) ;;
            field <- lift (Value_Set (Type_ fieldType) x) ;;
            fillFields g rest (S i) index (<[i := field]> vs)
        | None =>
            match defaults g !! fieldName with
            | Some defaultVal =>
                field <- lift (Value_Set (Type_ fieldType) defaultVal) ;;
                fillFields g rest (S i) index (<[i := field]> vs)
            | None =>
                w <- autoFill fieldType index ;;
                fillFields g rest (S i) index
                  (match w with Some field => <[i := field]> vs | None => vs end)
            end
        end
  end.

(** [fillStruct(v, index)] for [v] the addressable value [elem] of type
    [t]; the result is [elem] afterwards. *)
Definition fillStruct (g : Generator) (t : rtype) (elem : Value) (index : Z) : M Value :=
  _ <- lift (NumField t) ;;
  match elem with
  | VStruct vs => vs' <- fillFields g (TypeFields t) 0 index vs ;; ret (VStruct vs')
  | _ => ret elem
  end.

Definition Generate (g : Generator) (T : rtype) (count : Z) : M (list Value) :=
  result <- lift (make_slice T count) ;;
  for_lt count
    (fun i result =>
       elem <- fillStruct g T (Zero T) i ;;
       ret (<[Z.to_nat i := elem]> result))
    result.

Definition GenerateOne (g : Generator) (T : rtype) : M Value :=
  fillStruct g T (Zero T) 0.

(** [generatePrimitive]. *)
Definition generatePrimitive (T : rtype) (index : Z) : Result Value :=
  let k := TypeKind T in
  match k with
  | Kind.String => SetString k (Sprintf_s_d "text" (int_add index 1))
  | Kind.Int | Kind.Int8 | Kind.Int16 | Kind.Int32 | Kind.Int64 =>
      SetInt k (int64 (int_add index 1))
  | Kind.Uint | Kind.Uint8 | Kind.Uint16 | Kind.Uint32 | Kind.Uint64 =>
      SetUint k (uint64 (int_add index 1))
  | Kind.Float32 | Kind.Float64 =>
      SetFloat k (f64_mul (float64_of_int (int_add index 1)) f64_1_1)
  | Kind.Bool => SetBool k (Z.rem index 2 =? 0)
  | _ => Ok (Zero T)
  end.

(** The kind of [reflect.ValueOf(zero)]: [Invalid] for a nil interface. *)
Definition kindOf (d : Dyn) : Kind.t :=
  match d with
  | None => Kind.Invalid
  | Some (t, _) => TypeKind t
  end.

Definition GenerateSlice (T : rtype) (count : Z) : M (list Value) :=
  result <- lift (make_slice T count) ;;
  match kindOf (ValueOf T (Zero T)) with
  | Kind.Struct => Generate New T count
  | _ =>
      for_lt count
        (fun i result =>
           x <- lift (generatePrimitive T i) ;;
           ret (<[Z.to_nat i := x]> result))
        result
  end.

(** [GenerateSliceWith]; [None] is the nil modifier. *)
Definition GenerateSliceWith (T : rtype) (count : Z)
           (modifier : option (Value -> Z -> Result Value)) : M (list Value) :=
  result <- lift (make_slice T count) ;;
  match kindOf (ValueOf T (Zero T)) with
  | Kind.Struct =>
      let gen := New in
      for_lt count
        (fun i result =>
           elem <- fillStruct gen T (Zero T) i ;;
           elem <- lift (match modifier with
                         | Some modifier => modifier elem i
                         | None => Ok elem
                         end) ;;
           ret (<[Z.to_nat i := elem]> result))
        result
  | _ =>
      for_lt count
        (fun i result =>
           elem <- lift (generatePrimitive T i) ;;
           elem <- lift (match modifier with
                         | Some modifier => modifier elem i
                         | None => Ok elem
                         end) ;;
           ret (<[Z.to_nat i := elem]> result))
        result
  end.

(** *** Builder *)

Definition Build : Builder := {| gen := New; modifiers := [] |}.

Definition With (b : Builder) (modifier : Value -> Z -> Result Value) : Builder :=
  {| gen := gen b; modifiers := modifiers b ++ [modifier] |}.

(** The loop of [WithDefaults] over the prototype's fields. *)
Fixpoint seedDefaults (fs : list StructField) (vs : list Value)
         (d : gmap string Dyn) {struct fs} : Result (gmap string Dyn) :=
  match fs, vs with
  | fieldType :: fs', field :: vs' =>
      if negb (IsZero (Type_ fieldType) field) then
        rbind (Interface fieldType field)
              (fun x => seedDefaults fs' vs' (<[Name fieldType := x]> d))
      else seedDefaults fs' vs' d
  | _, _ => Ok d
  end.

Definition WithDefaults (T : rtype) (b : Builder) (proto : Value) : Result Builder :=
  match ValueOf T proto with
  | None => Panic (ValueError "reflect.Value.Type" Kind.Invalid)
  | Some (t, v) =>
      rbind (NumField t) (fun _ =>
      rbind (seedDefaults (TypeFields t)
               (match v with VStruct vs => vs | _ => [] end)
               (defaults (gen b)))
            (fun d =>
               Ok {| gen := {| defaults := d; customs := customs (gen b) |};
                     modifiers := modifiers b |}))
  end.

(** The loop of [generateSingle] over the modifiers. *)
Fixpoint applyModifiers (ms : list (Value -> Z -> Result Value))
         (elem : Value) (index : Z) : Result Value :=
  match ms with
  | [] => Ok elem
  | modifier :: rest => rbind (modifier elem index) (fun e => applyModifiers rest e index)
  end.

Definition generateSingle (b : Builder) (T : rtype) (index : Z) : M Value :=
  elem <- fillStruct (gen b) T (Zero T) index ;;
  lift (applyModifiers (modifiers b) elem index).

Definition Builder_Generate (b : Builder) (T : rtype) (count : Z) : M (list Value) :=
  result <- lift (make_slice T count) ;;
  for_lt count
    (fun i result =>
       elem <- generateSingle b T i ;;
       ret (<[Z.to_nat i := elem]> result))
    result.

Definition Builder_GenerateOne (b : Builder) (T : rtype) : M Value :=
  generateSingle b T 0.

End Model.

(** ** Definitions used to state the properties *)

(** The results of [f i], [f (i+1)], ... run one after the other: what a
    loop that stores [f i] at position [i] has produced after [n] turns. *)
Fixpoint collect {A} (n : nat) (i : Z) (f : Z -> M A) : M (list A) :=
  match n with
  | O => ret []
  | S n' => e <- f i ;; es <- collect n' (i + 1) f ;; ret (e :: es)
  end.

(** What a location of type [T] holds once a value [xv] of type [V] has
    been assigned to it: the value, boxed when [T] is an interface type. *)
Definition stored (T V : rtype) (xv : Value) : Value :=
  if rtype_eqb T V then xv
  else match TypeKind T with
       | Kind.Interface => VIface V xv
       | _ => xv
       end.

(** Two instances of [T] that agree on every field whose type is not
    [time.Time]. *)
Definition same_but_time (T : rtype) (v1 v2 : Value) : Prop :=
  exists vs1 vs2,
    v1 = VStruct vs1 /\ v2 = VStruct vs2 /\ length vs1 = length vs2 /\
    forall (j : nat) (f : StructField),
      TypeFields T !! j = Some f -> Type_ f <> timeType -> vs1 !! j = vs2 !! j.

(** The outcomes of two runs coincide up to the clock: the same panic, or
    results related by [R]. *)
Definition same_outcome {A} (R : A -> A -> Prop) (r1 r2 : Result (A * nat)) : Prop :=
  match r1, r2 with
  | Ok (a1, _), Ok (a2, _) => R a1 a2
  | Panic p1, Panic p2 => p1 = p2
  | _, _ => False
  end.

(** A modifier that assigns [x] to field [j] of the instance. *)
Definition setField (j : nat) (x : Value) : Value -> Z -> Result Value :=
  fun v _ => match v with
             | VStruct vs => Ok (VStruct (<[j := x]> vs))
             | _ => Ok v
             end.

(** What [fillStruct] does with one field [f] that held [old]: the field
    is skipped, or takes the custom generator's value, or the default, or
    what [autoFill] writes. *)
Section Outcome.
Context {host : Host}.

Inductive Resolved (g : Generator) (f : StructField) (index : Z) (old : Value) :
  Value -> Prop :=
| Resolved_skip :
    CanSet f = false ->
    Resolved g f index old old
| Resolved_custom (customFn : Z -> Result Dyn) (x : Dyn) (v : Value) :
    CanSet f = true ->
    customs g !! Name f = Some customFn ->
    customFn index = Ok x ->
    Value_Set (Type_ f) x = Ok v ->
    Resolved g f index old v
| Resolved_default (defaultVal : Dyn) (v : Value) :
    CanSet f = true ->
    customs g !! Name f = None ->
    defaults g !! Name f = Some defaultVal ->
    Value_Set (Type_ f) defaultVal = Ok v ->
    Resolved g f index old v
| Resolved_auto (s0 s1 : nat) (w : option Value) :
    CanSet f = true ->
    customs g !! Name f = None ->
    defaults g !! Name f = None ->
    autoFill f index s0 = Ok (w, s1) ->
    Resolved g f index old (default old w).

(** The three-tier precedence as the specification words it: the custom
    generator's value if one is registered under the field's name,
    otherwise the default registered under the name, otherwise the
    auto-synthesized value (the zero value where nothing is written). *)
Definition resolves_by_precedence (g : Generator) (f : StructField) (index : Z)
           (v : Value) : Prop :=
  match customs g !! Name f with
  | Some customFn =>
      exists V xv, customFn index = Ok (Some (V, xv)) /\ v = stored (Type_ f) V xv
  | None =>
      match defaults g !! Name f with
      | Some defaultVal =>
          exists V xv, defaultVal = Some (V, xv) /\ v = stored (Type_ f) V xv
      | None =>
          exists s0 s1 w,
            autoFill f index s0 = Ok (w, s1) /\ v = default (Zero (Type_ f)) w
      end
  end.

(** The auto-synthesis table of the specification for index [i], with
    integers reduced to the width of the field: the value [v] of a field
    [f] that has neither a custom generator nor a default.  A
    [time.Time] field is not constrained. *)
Definition auto_synthesized (f : StructField) (i : Z) (v : Value) : Prop :=
  let n := i + 1 in
  match TypeKind (Type_ f) with
  | Kind.String => v = VString (ToLower (Name f) ++ "_" ++ itoa n)
  | Kind.Int | Kind.Int64 => v = VInt n
  | Kind.Int8 => v = VInt (wrap_signed 8 n) /\ (n < 2 ^ 7 -> v = VInt n)
  | Kind.Int16 => v = VInt (wrap_signed 16 n) /\ (n < 2 ^ 15 -> v = VInt n)
  | Kind.Int32 => v = VInt (wrap_signed 32 n) /\ (n < 2 ^ 31 -> v = VInt n)
  | Kind.Uint | Kind.Uint64 => v = VUint n
  | Kind.Uint8 => v = VUint (wrap_unsigned 8 n) /\ (n < 2 ^ 8 -> v = VUint n)
  | Kind.Uint16 => v = VUint (wrap_unsigned 16 n) /\ (n < 2 ^ 16 -> v = VUint n)
  | Kind.Uint32 => v = VUint (wrap_unsigned 32 n) /\ (n < 2 ^ 32 -> v = VUint n)
  | Kind.Float64 => v = VFloat (f64_mul (float64_of_int n) f64_1_1)
  | Kind.Float32 =>
      v = VFloat (float32_of_float64 (f64_mul (float64_of_int n) f64_1_1))
  | Kind.Bool => v = VBool (Z.even i)
  | Kind.Struct => Type_ f = timeType \/ v = Zero (Type_ f)
  | _ => v = Zero (Type_ f)
  end.

(** What the override maps hold for the field [f] at an index: the
    custom generator's result, else the default, else nothing. *)
Definition override (g : Generator) (f : StructField) (index : Z) :
  option (Result Dyn) :=
  match customs g !! Name f with
  | Some customFn => Some (customFn index)
  | None =>
      match defaults g !! Name f with
      | Some defaultVal => Some (Ok defaultVal)
      | None => None
      end
  end.

(** The value [x] cannot be assigned to a location of type [T]. *)
Definition unassignable (T : rtype) (x : Dyn) : Prop :=
  match x with
  | None => True
  | Some (V, _) => AssignableTo V T = false
  end.

(** The table of [generatePrimitive] for index [i], with integers
    reduced to the width of [T]: the element [v] of a slice of a type
    [T] that is not a struct. *)
Definition primitive_synthesized (T : rtype) (i : Z) (v : Value) : Prop :=
  let n := i + 1 in
  match TypeKind T with
  | Kind.String => v = VString ("text_" ++ itoa n)
  | Kind.Int | Kind.Int64 => v = VInt n
  | Kind.Int8 => v = VInt (wrap_signed 8 n) /\ (n < 2 ^ 7 -> v = VInt n)
  | Kind.Int16 => v = VInt (wrap_signed 16 n) /\ (n < 2 ^ 15 -> v = VInt n)
  | Kind.Int32 => v = VInt (wrap_signed 32 n) /\ (n < 2 ^ 31 -> v = VInt n)
  | Kind.Uint | Kind.Uint64 => v = VUint n
  | Kind.Uint8 => v = VUint (wrap_unsigned 8 n) /\ (n < 2 ^ 8 -> v = VUint n)
  | Kind.Uint16 => v = VUint (wrap_unsigned 16 n) /\ (n < 2 ^ 16 -> v = VUint n)
  | Kind.Uint32 => v = VUint (wrap_unsigned 32 n) /\ (n < 2 ^ 32 -> v = VUint n)
  | Kind.Float64 => v = VFloat (f64_mul (float64_of_int n) f64_1_1)
  | Kind.Float32 =>
      v = VFloat (float32_of_float64 (f64_mul (float64_of_int n) f64_1_1))
  | Kind.Bool => v = VBool (Z.even i)
  | _ => v = Zero T
  end.

(** The override of the field [f] at an index, if there is one, returns
    a value that can be assigned to the field. *)
Definition override_assignable (g : Generator) (f : StructField) (index : Z) : Prop :=
  match override g f index with
  | None => True
  | Some r => exists x v, r = Ok x /\ Value_Set (Type_ f) x = Ok v
  end.
End Outcome.

(** The panic of [Value.Interface] on a field that is not exported. *)
Definition unexported_panic : PanicValue :=
  PanicMsg "reflect.Value.Interface: cannot return value obtained from unexported field or method".

(** The panic of [Value.Set] for a value that cannot be assigned to a
    location of type [T]: for nil the error of a call on the zero Value,
    otherwise a message made of the two types. *)
Definition mismatch_panic (T : rtype) (x : Dyn) : PanicValue :=
  match x with
  | None => ValueError "reflect.Value.Set" Kind.Invalid
  | Some (V, _) =>
      PanicMsg ("reflect.Set: value of type " ++ TypeString V
                ++ " is not assignable to type " ++ TypeString T)
  end.

(** *** A sample host and sample types, for concrete runs *)

Definition anyType : rtype := MkType "interface {}" Kind.Interface [].

(** Only the empty interface accepts values of another type; the clock
    advances by one at each reading; names are ASCII; slices of up to
    2^20 elements can be made. *)
Definition sample_host : Host := {|
  unicode_ToLower := fun s => s;
  assignable_rule := fun _ T => rtype_eqb T anyType;
  wall_clock := fun n => (1000 + Z.of_nat n, 7);
  make_limit := fun _ => 1048576%positive;
|}.

Definition tInt : rtype := basic "int" Kind.Int.
Definition tInt8 : rtype := basic "int8" Kind.Int8.
Definition tUint8 : rtype := basic "uint8" Kind.Uint8.
Definition tString : rtype := basic "string" Kind.String.
Definition tBool : rtype := basic "bool" Kind.Bool.
Definition tFloat64 : rtype := basic "float64" Kind.Float64.
Definition tFloat32 : rtype := basic "float32" Kind.Float32.

(** [type User struct { ID int; UserName string; Score float64;
    Active bool; CreatedAt time.Time; secret string; Extra any }]. *)
Definition User : rtype :=
  MkType "main.User" Kind.Struct
    [ MkField "ID" true tInt;
      MkField "UserName" true tString;
      MkField "Score" true tFloat64;
      MkField "Active" true tBool;
      MkField "CreatedAt" true timeType;
      MkField "secret" false tString;
      MkField "Extra" true anyType ].

(** [type Account struct { ID int; Name string; Active bool }]. *)
Definition Account : rtype :=
  MkType "main.Account" Kind.Struct
    [ MkField "ID" true tInt; MkField "Name" true tString; MkField "Active" true tBool ].

(** [type Person struct { Age int }]. *)
Definition Person : rtype :=
  MkType "main.Person" Kind.Struct [ MkField "Age" true tInt ].

(** [type Small struct { Level int8 }]. *)
Definition Small : rtype :=
  MkType "main.Small" Kind.Struct [ MkField "Level" true tInt8 ].

(** A generator with a default and a custom generator under the same
    name [ID], and a default under [UserName]. *)
Definition sample_generator : Generator :=
  {| defaults := <["UserName" := Some (tString, VString "bob")]>
                   (<["ID" := Some (tInt, VInt 42)]> ∅);
     customs := <["ID" := fun i => Ok (Some (tInt, VInt (100 + i)))]> ∅ |}.

(** A generator whose only overrides sit under the name of the
    unexported field [secret]. *)
Definition secret_generator : Generator :=
  {| defaults := <["secret" := Some (tString, VString "s3cr3t")]> ∅;
     customs := <["secret" := fun _ => Panic (PanicMsg "never called")]> ∅ |}.

(** A generator whose custom generator for [Age] returns a string. *)
Definition mismatched_generator : Generator :=
  {| defaults := ∅;
     customs := <["Age" := fun _ => Ok (Some (tString, VString "x"))]> ∅ |}.

(** [User{UserName: "bob", secret: "s3cr3t"}]. *)
Definition sample_prototype : list Value :=
  [ VInt 0; VString "bob"; VFloat (S754_zero false); VBool false;
    VStruct [VUint 0; VInt 0; VOther true ""]; VString "s3cr3t"; VNilIface ].

(** The instance at position [i] of a run that returned. *)
Definition instance_at (run : Result (list Value * nat)) (i : nat) : option Value :=
  match run with
  | Ok (r, _) => r !! i
  | Panic _ => None
  end.

(** The modifiers [ms] run on each instance of [r] in turn, the first
    instance at index [i]; the first panic ends the run. *)
Fixpoint modify_all (ms : list (Value -> Z -> Result Value)) (r : list Value) (i : Z) :
  Result (list Value) :=
  match r with
  | [] => Ok []
  | elem :: rest =>
      rbind (applyModifiers ms elem i)
            (fun e => rbind (modify_all ms rest (i + 1)) (fun es => Ok (e :: es)))
  end.

(** [User{UserName: "bob"}]. *)
Definition bob_prototype : list Value :=
  [ VInt 0; VString "bob"; VFloat (S754_zero false); VBool false;
    VStruct [VUint 0; VInt 0; VOther true ""]; VString ""; VNilIface ].

(** [User{UserName: "bob", Score: math.Copysign(0, -1)}]. *)
Definition negative_zero_prototype : list Value :=
  [ VInt 0; VString "bob"; VFloat (S754_zero true); VBool false;
    VStruct [VUint 0; VInt 0; VOther true ""]; VString ""; VNilIface ].

(** [type Hidden struct { a int; b string }]. *)
Definition Hidden : rtype :=
  MkType "main.Hidden" Kind.Struct [ MkField "a" false tInt; MkField "b" false tString ].

(** A modifier that panics. *)
Definition failing_modifier : Value -> Z -> Result Value :=
  fun _ _ => Panic (PanicMsg "modifier failed").

(** * Properties *)

(** ** Type descriptors *)

Lemma Kind_eqb_eq (a b : Kind.t) : Kind.eqb a b = true -> a = b.
Proof. destruct a, b; simpl; congruence. Qed.

Fixpoint rtype_eqb_sound (a : rtype) {struct a} :
  forall b, rtype_eqb a b = true -> a = b
with field_eqb_sound (f : StructField) {struct f} :
  forall g, field_eqb f g = true -> f = g.
Proof.
  - destruct a as [s k fs]; intros [s' k' fs']; simpl; intros H.
    apply andb_prop in H as [H H3]. apply andb_prop in H as [H1 H2].
    apply String.eqb_eq in H1. apply Kind_eqb_eq in H2. subst s' k'.
    f_equal. revert fs' H3.
    induction fs as [|f r IH]; intros [|f' r'] H; try discriminate; [reflexivity|].
    apply andb_prop in H as [Hf Hr].
    f_equal; [apply field_eqb_sound; exact Hf | apply IH; exact Hr].
  - destruct f as [n e t]; intros [n' e' t']; simpl; intros H.
    apply andb_prop in H as [H H3]. apply andb_prop in H as [H1 H2].
    apply String.eqb_eq in H1. apply Bool.eqb_prop in H2.
    apply rtype_eqb_sound in H3. congruence.
Qed.

(** The zero value of a struct type is a struct of zero values. *)
Lemma Zero_struct (s : string) (fs : list StructField) :
  Zero (MkType s Kind.Struct fs) = VStruct (map (fun f => Zero (Type_ f)) fs).
Proof.
  simpl. f_equal. induction fs as [|[n e t] r IH]; simpl; [reflexivity|].
  f_equal. exact IH.
Qed.

Lemma Zero_struct_kind (T : rtype) :
  TypeKind T = Kind.Struct ->
  Zero T = VStruct (map (fun f => Zero (Type_ f)) (TypeFields T)).
Proof.
  destruct T as [s k fs]; cbn [TypeKind TypeFields].
  intros ->. exact (Zero_struct s fs).
Qed.

(** ** Steps and loops *)

Lemma bind_Ok {A B} (m : M A) (k : A -> M B) (s : nat) (r : B * nat) :
  bind m k s = Ok r <-> exists a s1, m s = Ok (a, s1) /\ k a s1 = Ok r.
Proof.
  unfold bind. split.
  - destruct (m s) as [[a s1]|p]; [eauto | discriminate].
  - intros (a & s1 & -> & Hk). exact Hk.
Qed.

Lemma lift_Ok {A} (r : Result A) (s s' : nat) (a : A) :
  lift r s = Ok (a, s') <-> r = Ok a /\ s' = s.
Proof.
  unfold lift. destruct r as [a0|p]; split.
  - intros [= -> ->]. split; reflexivity.
  - intros [[= ->] ->]. reflexivity.
  - discriminate.
  - intros [? _]. discriminate.
Qed.

Lemma ret_Ok {A} (a b : A) (s s' : nat) :
  ret a s = Ok (b, s') <-> b = a /\ s' = s.
Proof. unfold ret. split; [intros [= -> ->]; auto | intros [-> ->]; reflexivity]. Qed.

(** Splits a successful run into its steps. *)
Ltac run_ok H :=
  repeat match type of H with
         | bind _ _ _ = Ok _ =>
             let a := fresh "a" in
             let s1 := fresh "s" in
             let H1 := fresh "Hstep" in
             apply bind_Ok in H as (a & s1 & H1 & H);
             try (apply lift_Ok in H1 as [H1 ->])
         | lift _ _ = Ok (_, _) => apply lift_Ok in H as [H ->]
         | ret _ _ = Ok (_, _) => apply ret_Ok in H as [-> ->]
         end.

Lemma collect_length {A} (f : Z -> M A) (n : nat) (i : Z) (s s' : nat) (es : list A) :
  collect n i f s = Ok (es, s') -> length es = n.
Proof.
  revert i s s' es. induction n as [|n IH]; intros i s s' es H; simpl in H.
  - apply ret_Ok in H as [-> _]. reflexivity.
  - apply bind_Ok in H as (e & s1 & He & H).
    apply bind_Ok in H as (es' & s2 & Hes & H).
    apply ret_Ok in H as [-> _]. simpl. f_equal. eapply IH. exact Hes.
Qed.

(** Each element collected is the result of [f] at its index, from some
    state of the clock. *)
Lemma collect_lookup {A} (f : Z -> M A) (n : nat) (i : Z) (s s' : nat) (es : list A) :
  collect n i f s = Ok (es, s') ->
  forall (k : nat) (e : A), es !! k = Some e ->
    exists sk sk', f (i + Z.of_nat k) sk = Ok (e, sk').
Proof.
  revert i s s' es. induction n as [|n IH]; intros i s s' es H k e Hk; simpl in H.
  - apply ret_Ok in H as [-> _]. discriminate.
  - apply bind_Ok in H as (e0 & s1 & He & H).
    apply bind_Ok in H as (es' & s2 & Hes & H).
    apply ret_Ok in H as [-> _].
    destruct k as [|k]; simpl in Hk.
    + injection Hk as <-. exists s, s1. rewrite Z.add_0_r. exact He.
    + destruct (IH _ _ _ _ Hes k e Hk) as (sk & sk' & Hf).
      exists sk, sk'. rewrite <- Hf. f_equal. lia.
Qed.

(** The loop [for i < count { x := f(i); result[i] = x }] stores what
    [collect] gathers. *)
Lemma loop_collect (f : Z -> M Value) (n : nat) (i : Z) (result : list Value) (s : nat) :
  0 <= i -> (Z.to_nat i + n <= length result)%nat ->
  loop n i (fun i result => x <- f i ;; ret (<[Z.to_nat i := x]> result)) result s =
  (es <- collect n i f ;;
   ret (take (Z.to_nat i) result ++ es ++ drop (Z.to_nat i + n) result)%list) s.
Proof.
  unfold bind, ret.
  revert i result s. induction n as [|n IH]; intros i result s Hi Hlen; simpl.
  - rewrite Nat.add_0_r, take_drop. reflexivity.
  - unfold bind, ret.
    destruct (f i s) as [[x s1]|p]; [|reflexivity].
    rewrite IH by (rewrite ?length_insert; lia).
    destruct (collect n (i + 1) f s1) as [[es s2]|p]; [|reflexivity].
    do 2 f_equal.
    replace (Z.to_nat (i + 1)) with (S (Z.to_nat i)) by lia.
    assert (Hlt : (Z.to_nat i < length result)%nat) by lia.
    rewrite (take_S_r _ _ x) by (apply list_lookup_insert_eq; exact Hlt).
    rewrite take_insert_ge by lia.
    rewrite drop_insert_lt by lia.
    rewrite <- app_assoc. simpl.
    replace (S (Z.to_nat i + n)) with (Z.to_nat i + S n)%nat by lia.
    reflexivity.
Qed.

Lemma for_lt_collect (f : Z -> M Value) (count : Z) (z : Value) (s : nat) :
  for_lt count (fun i result => x <- f i ;; ret (<[Z.to_nat i := x]> result))
         (replicate (Z.to_nat count) z) s =
  collect (Z.to_nat count) 0 f s.
Proof.
  unfold for_lt. rewrite loop_collect; [|lia|rewrite length_replicate; simpl; lia].
  unfold bind, ret. destruct (collect (Z.to_nat count) 0 f s) as [[es s1]|p]; [|reflexivity].
  simpl. rewrite drop_ge by (rewrite length_replicate; lia).
  rewrite app_nil_r. reflexivity.
Qed.

(** ** Filling one instance *)

Section Filling.
Context {host : Host}.

Lemma Value_Set_Ok (T : rtype) (x : Dyn) (v : Value) :
  Value_Set T x = Ok v <->
  exists V xv, x = Some (V, xv) /\ AssignableTo V T = true /\ v = stored T V xv.
Proof.
  unfold Value_Set, AssignableTo, stored. split.
  - destruct x as [[V xv]|]; [|discriminate].
    intros H. exists V, xv. split; [reflexivity|].
    destruct (rtype_eqb T V); simpl.
    + injection H as <-. split; reflexivity.
    + destruct (assignable_rule V T); [|discriminate].
      split; [reflexivity|]. destruct (TypeKind T); congruence.
  - intros (V & xv & -> & Ha & ->).
    destruct (rtype_eqb T V); simpl in *; [reflexivity|].
    rewrite Ha. destruct (TypeKind T); reflexivity.
Qed.

(** [autoFill] never panics, and only a [time.Time] field depends on
    the clock. *)
Lemma autoFill_runs (f : StructField) (index : Z) (s1 s2 : nat) :
  exists w1 w2 s1' s2',
    autoFill f index s1 = Ok (w1, s1') /\
    autoFill f index s2 = Ok (w2, s2') /\
    (w1 = w2 \/
     (Type_ f = timeType /\ exists v1 v2, w1 = Some v1 /\ w2 = Some v2)).
Proof.
  destruct f as [n e [str k fs]]. unfold autoFill. cbn [Type_ TypeKind Name].
  destruct k;
    try (do 4 eexists; split; [reflexivity|]; split; [reflexivity|];
         left; reflexivity).
  destruct (rtype_eqb (MkType str Kind.Struct fs) timeType) eqn:E.
  - unfold bind, time_Now, lift, ret, Value_Set. rewrite E.
    do 4 eexists. split; [reflexivity|]. split; [reflexivity|].
    right. split; [apply rtype_eqb_sound; exact E | eauto].
  - do 4 eexists. split; [reflexivity|]. split; [reflexivity|].
    left; reflexivity.
Qed.

(** The master lemma on [fillFields]: lengths are kept, the fields
    before [i] are not touched, and each field from [i] on is resolved
    from what it held on entry. *)
Lemma fillFields_Ok (g : Generator) (fs : list StructField) (index : Z) :
  forall (i : nat) (vs vs' : list Value) (s s' : nat),
    fillFields g fs i index vs s = Ok (vs', s') ->
    length vs' = length vs /\
    (forall j : nat, (j < i)%nat -> vs' !! j = vs !! j) /\
    (forall (k : nat) (f : StructField) (old : Value),
        fs !! k = Some f -> vs !! (i + k)%nat = Some old ->
        exists new, vs' !! (i + k)%nat = Some new /\ Resolved g f index old new).
Proof.
  induction fs as [|f0 rest IH]; intros i vs vs' s s' H; simpl in H.
  - apply ret_Ok in H as [-> ->].
    split; [reflexivity|]. split; [reflexivity|]. intros k f old Hk. discriminate.
  - assert (Hstep : forall vs1 s1 new0,
               fillFields g rest (S i) index vs1 s1 = Ok (vs', s') ->
               length vs1 = length vs ->
               (forall j, j <> i -> vs1 !! j = vs !! j) ->
               (forall old, vs !! i = Some old ->
                            vs1 !! i = Some (new0 old) /\ Resolved g f0 index old (new0 old)) ->
               length vs' = length vs /\
               (forall j : nat, (j < i)%nat -> vs' !! j = vs !! j) /\
               (forall (k : nat) (f : StructField) (old : Value),
                   (f0 :: rest) !! k = Some f -> vs !! (i + k)%nat = Some old ->
                   exists new, vs' !! (i + k)%nat = Some new /\ Resolved g f index old new)).
    { intros vs1 s1 new0 Hrest Hlen Hother Hat.
      destruct (IH _ _ _ _ _ Hrest) as (Hl & Hbefore & Hfrom).
      split; [congruence|]. split.
      - intros j Hj. rewrite Hbefore by lia. apply Hother. lia.
      - intros [|k] f old Hk Hold.
        + injection Hk as <-. rewrite Nat.add_0_r in *.
          destruct (Hat old Hold) as [H1 HR].
          exists (new0 old). split; [|exact HR].
          rewrite Hbefore by lia. exact H1.
        + simpl in Hk. replace (i + S k)%nat with (S i + k)%nat in * by lia.
          apply (Hfrom k f old Hk). rewrite Hother by lia. exact Hold. }
    destruct (CanSet f0) eqn:Hset; simpl in H.
    + destruct (customs g !! Name f0) as [customFn|] eqn:Hc.
      * run_ok H. rename a into x. rename a0 into field.
        apply (Hstep _ _ (fun _ => field) H).
        -- apply length_insert.
        -- intros j Hj. apply list_lookup_insert_ne. congruence.
        -- intros old Hold. split.
           ++ apply list_lookup_insert_eq. eapply lookup_lt_Some; eauto.
           ++ eapply Resolved_custom; eauto.
      * destruct (defaults g !! Name f0) as [defaultVal|] eqn:Hd.
        -- run_ok H. rename a into field.
           apply (Hstep _ _ (fun _ => field) H).
           ++ apply length_insert.
           ++ intros j Hj. apply list_lookup_insert_ne. congruence.
           ++ intros old Hold. split.
              ** apply list_lookup_insert_eq. eapply lookup_lt_Some; eauto.
              ** eapply Resolved_default; eauto.
        -- apply bind_Ok in H as (w & s1 & Hw & H).
           apply (Hstep _ _ (fun old => default old w) H).
           ++ destruct w; [apply length_insert | reflexivity].
           ++ intros j Hj. destruct w; [|reflexivity].
              apply list_lookup_insert_ne. congruence.
           ++ intros old Hold. split.
              ** destruct w; simpl; [|exact Hold].
                 apply list_lookup_insert_eq. eapply lookup_lt_Some; eauto.
              ** eapply Resolved_auto; eauto.
    + apply (Hstep _ _ (fun old => old) H); [reflexivity|reflexivity|].
      intros old Hold. split; [exact Hold|]. apply Resolved_skip. exact Hset.
Qed.

Lemma NumField_Ok (t : rtype) (n : nat) :
  NumField t = Ok n -> TypeKind t = Kind.Struct.
Proof. unfold NumField. destruct (TypeKind t); (discriminate || reflexivity). Qed.

(** A successful [fillStruct] on the zero instance: [T] is a struct
    type, and every field is resolved from its zero value. *)
Lemma fillStruct_Ok (g : Generator) (T : rtype) (index : Z) (s s' : nat) (inst : Value) :
  fillStruct g T (Zero T) index s = Ok (inst, s') ->
  TypeKind T = Kind.Struct /\
  exists vs,
    inst = VStruct vs /\ length vs = length (TypeFields T) /\
    forall (j : nat) (f : StructField),
      TypeFields T !! j = Some f ->
      exists new, vs !! j = Some new /\ Resolved g f index (Zero (Type_ f)) new.
Proof.
  unfold fillStruct. intros H.
  apply bind_Ok in H as (n & s1 & Hn & H). apply lift_Ok in Hn as [Hn ->].
  apply NumField_Ok in Hn. split; [exact Hn|].
  rewrite (Zero_struct_kind T Hn) in H.
  apply bind_Ok in H as (vs & s2 & Hf & H). apply ret_Ok in H as [-> ->].
  apply fillFields_Ok in Hf as (Hl & _ & Hfrom).
  exists vs. split; [reflexivity|]. split.
  - rewrite Hl. apply length_map.
  - intros j f Hj. apply (Hfrom j f (Zero (Type_ f)) Hj).
    simpl. rewrite list_lookup_fmap, Hj. reflexivity.
Qed.
End Filling.

(** ** Machine arithmetic at the indices generation uses *)

Lemma wrap_signed_small (w x : Z) :
  0 < w -> - 2 ^ (w - 1) <= x < 2 ^ (w - 1) -> wrap_signed w x = x.
Proof.
  intros Hw Hx. unfold wrap_signed.
  assert (Hpow : 2 ^ w = 2 * 2 ^ (w - 1)).
  { replace w with (Z.succ (w - 1)) at 1 by lia. apply Z.pow_succ_r. lia. }
  rewrite Z.mod_small by lia. lia.
Qed.

Lemma wrap_unsigned_small (w x : Z) :
  0 <= x < 2 ^ w -> wrap_unsigned w x = x.
Proof. intros Hx. unfold wrap_unsigned. apply Z.mod_small. exact Hx. Qed.

(** [index+1] does not overflow below the largest [int]. *)
Lemma int_add_index (index : Z) :
  0 <= index < 2 ^ 63 - 1 -> int_add index 1 = index + 1.
Proof.
  intros H. unfold int_add. apply wrap_signed_small; [lia|].
  change (64 - 1) with 63. lia.
Qed.

Lemma int64_index (n : Z) : 0 <= n < 2 ^ 63 -> int64 n = n.
Proof.
  intros H. unfold int64. apply wrap_signed_small; [lia|].
  change (64 - 1) with 63. lia.
Qed.

Lemma uint64_index (n : Z) : 0 <= n < 2 ^ 63 -> uint64 n = n.
Proof.
  intros H. unfold uint64. apply wrap_unsigned_small.
  assert (2 ^ 63 < 2 ^ 64) by (apply Z.pow_lt_mono_r; lia). lia.
Qed.

(** Go's [index%2 == 0] is evenness. *)
Lemma rem2_even (index : Z) : (Z.rem index 2 =? 0) = Z.even index.
Proof.
  destruct (Z.even index) eqn:E.
  - apply Z.eqb_eq. apply Z.even_spec in E as [k ->].
    rewrite Z.mul_comm. apply Z.rem_mul. lia.
  - apply Z.eqb_neq. intros Hrem.
    assert (Hodd : Z.odd index = true) by (rewrite <- Z.negb_even, E; reflexivity).
    apply Z.odd_spec in Hodd as [k ->].
    pose proof (Z.quot_rem' (2 * k + 1) 2) as Hq. rewrite Hrem in Hq. lia.
Qed.

(** ** Generating many instances *)

Section Generation.
Context {host : Host}.

Lemma len_in_range (T : rtype) (count : Z) :
  len_out_of_range T count = false <-> 0 <= count <= Z.pos (make_limit T).
Proof.
  unfold len_out_of_range. rewrite orb_false_iff, !Z.ltb_ge. tauto.
Qed.

Lemma len_negative (T : rtype) (count : Z) :
  count < 0 -> len_out_of_range T count = true.
Proof.
  intros H. unfold len_out_of_range. apply Z.ltb_lt in H. rewrite H. reflexivity.
Qed.

Lemma Generate_collect (g : Generator) (T : rtype) (count : Z) (s : nat) :
  Generate g T count s =
  if len_out_of_range T count then Panic (RuntimeError "makeslice: len out of range")
  else collect (Z.to_nat count) 0 (fillStruct g T (Zero T)) s.
Proof.
  unfold Generate, make_slice. destruct (len_out_of_range T count); [reflexivity|].
  rewrite <- (for_lt_collect _ count (Zero T)). reflexivity.
Qed.

Lemma Builder_Generate_collect (b : Builder) (T : rtype) (count : Z) (s : nat) :
  Builder_Generate b T count s =
  if len_out_of_range T count then Panic (RuntimeError "makeslice: len out of range")
  else collect (Z.to_nat count) 0 (generateSingle b T) s.
Proof.
  unfold Builder_Generate, make_slice. destruct (len_out_of_range T count); [reflexivity|].
  rewrite <- (for_lt_collect _ count (Zero T)). reflexivity.
Qed.

(** A successful [Generate]: [count] instances, the [i]-th filled at
    index [i]. *)
Lemma Generate_Ok (g : Generator) (T : rtype) (count : Z) (s s' : nat) (r : list Value) :
  Generate g T count s = Ok (r, s') ->
  0 <= count /\ length r = Z.to_nat count /\
  forall (i : nat) (inst : Value),
    r !! i = Some inst ->
    exists si si', fillStruct g T (Zero T) (Z.of_nat i) si = Ok (inst, si').
Proof.
  rewrite Generate_collect. destruct (len_out_of_range T count) eqn:E; [discriminate|].
  intros H. apply len_in_range in E. split; [lia|]. split.
  - eapply collect_length. exact H.
  - intros i inst Hi.
    destruct (collect_lookup _ _ _ _ _ _ H i inst Hi) as (si & si' & Hf).
    exists si, si'. exact Hf.
Qed.

(** What [autoFill] writes at an index that generation reaches. *)
Lemma autoFill_value (f : StructField) (index : Z) (s0 s1 : nat) (w : option Value) :
  0 <= index < 2 ^ 63 - 1 ->
  autoFill f index s0 = Ok (w, s1) ->
  let n := index + 1 in
  match TypeKind (Type_ f) with
  | Kind.String => w = Some (VString (ToLower (Name f) ++ "_" ++ itoa n))
  | Kind.Int | Kind.Int64 => w = Some (VInt n)
  | Kind.Int8 => w = Some (VInt (wrap_signed 8 n))
  | Kind.Int16 => w = Some (VInt (wrap_signed 16 n))
  | Kind.Int32 => w = Some (VInt (wrap_signed 32 n))
  | Kind.Uint | Kind.Uint64 => w = Some (VUint n)
  | Kind.Uint8 => w = Some (VUint (wrap_unsigned 8 n))
  | Kind.Uint16 => w = Some (VUint (wrap_unsigned 16 n))
  | Kind.Uint32 => w = Some (VUint (wrap_unsigned 32 n))
  | Kind.Float64 => w = Some (VFloat (f64_mul (float64_of_int n) f64_1_1))
  | Kind.Float32 =>
      w = Some (VFloat (float32_of_float64 (f64_mul (float64_of_int n) f64_1_1)))
  | Kind.Bool => w = Some (VBool (Z.even index))
  | Kind.Struct => Type_ f = timeType \/ w = None
  | _ => w = None
  end.
Proof.
  intros Hi. destruct f as [nm e [str k fs]].
  unfold autoFill. cbn [Type_ TypeKind Name].
  rewrite (int_add_index index Hi), rem2_even.
  assert (Hn : 0 <= index + 1 < 2 ^ 63) by lia.
  destruct k; cbn [SetString SetInt SetUint SetFloat SetBool];
    rewrite ?(int64_index _ Hn), ?(uint64_index _ Hn);
    unfold bind, lift, ret;
    try (intros [= <- <-]; cbv zeta; try reflexivity).
  - rewrite wrap_signed_small; [reflexivity|lia|change (64 - 1) with 63; lia].
  - rewrite wrap_signed_small; [reflexivity|lia|change (64 - 1) with 63; lia].
  - rewrite wrap_unsigned_small; [reflexivity|].
    assert (2 ^ 63 < 2 ^ 64) by (apply Z.pow_lt_mono_r; lia). lia.
  - rewrite wrap_unsigned_small; [reflexivity|].
    assert (2 ^ 63 < 2 ^ 64) by (apply Z.pow_lt_mono_r; lia). lia.
  - destruct (rtype_eqb (MkType str Kind.Struct fs) timeType) eqn:E.
    + intros _. left. apply rtype_eqb_sound. exact E.
    + intros [= <- <-]. right. reflexivity.
Qed.
End Generation.

(** ** Field resolution *)

Section Resolution.
Context {host : Host}.

Lemma Resolved_precedence (g : Generator) (f : StructField) (index : Z) (old v : Value) :
  CanSet f = true -> old = Zero (Type_ f) ->
  Resolved g f index old v -> resolves_by_precedence g f index v.
Proof.
  intros Hset -> HR. unfold resolves_by_precedence.
  destruct HR as [Hskip | fn x v Hs Hc Hx Hv | d v Hs Hc Hd Hv | s0 s1 w Hs Hc Hd Hw].
  - congruence.
  - rewrite Hc. apply Value_Set_Ok in Hv as (V & xv & -> & _ & ->). eauto.
  - rewrite Hc, Hd. apply Value_Set_Ok in Hv as (V & xv & -> & _ & ->). eauto.
  - rewrite Hc, Hd. eauto.
Qed.

(** C1: in every instance that [Generate] returns, each settable field
    is resolved by the three-tier precedence, first match winning: the
    custom generator registered under the field's name gives the value
    (its result at the instance's index); failing that the default
    registered under the name; failing that auto-synthesis.  With both a
    custom generator and a default set, the custom generator's value is
    the one stored. *)
Theorem resolution_precedence
        (g : Generator) (T : rtype) (count : Z) (s s' : nat) (r : list Value) :
  Generate g T count s = Ok (r, s') ->
  forall (i : nat) (inst : Value),
    r !! i = Some inst ->
    exists vs,
      inst = VStruct vs /\
      forall (j : nat) (f : StructField),
        TypeFields T !! j = Some f -> CanSet f = true ->
        exists v, vs !! j = Some v /\ resolves_by_precedence g f (Z.of_nat i) v.
Proof.
  intros H i inst Hi.
  apply Generate_Ok in H as (_ & _ & Hall).
  destruct (Hall i inst Hi) as (si & si' & Hfill).
  apply fillStruct_Ok in Hfill as (_ & vs & -> & _ & Hfields).
  exists vs. split; [reflexivity|].
  intros j f Hj Hset. destruct (Hfields j f Hj) as (v & Hv & HR).
  exists v. split; [exact Hv|].
  eapply Resolved_precedence; eauto.
Qed.

Lemma Resolved_auto_synthesized (g : Generator) (f : StructField) (index : Z) (v : Value) :
  0 <= index < 2 ^ 63 - 1 ->
  CanSet f = true -> customs g !! Name f = None -> defaults g !! Name f = None ->
  Resolved g f index (Zero (Type_ f)) v -> auto_synthesized f index v.
Proof.
  intros Hi Hset Hc Hd HR.
  destruct HR as [Hskip | fn x v Hs Hc' | d v Hs Hc' Hd' | s0 s1 w Hs Hc' Hd' Hw];
    try congruence.
  pose proof (autoFill_value f index s0 s1 w Hi Hw) as Hval.
  unfold auto_synthesized. cbv zeta in Hval.
  destruct (TypeKind (Type_ f)); try (rewrite Hval; simpl);
    try reflexivity;
    try (split; [reflexivity|]; intros Hfit;
         rewrite ?wrap_signed_small, ?wrap_unsigned_small; [reflexivity|lia..]).
  destruct Hval as [Htime | ->]; [left; exact Htime | right; reflexivity].
Qed.

(** C2, amended: in every instance that [Generate] returns, a settable
    field with no custom generator and no default holds at index [i]:
    for a text field the lower-cased field name, an underscore and [i+1]
    in decimal; for an integer field [i+1] reduced to the width of the
    field's type, which is [i+1] itself whenever [i+1] fits that type;
    for a float64 field the product of [i+1] and [1.1], rounded to
    single precision in a float32 field; for a boolean field [true] when
    [i] is even; for a nested record other than [time.Time] and for any
    other kind, the zero value. *)
Theorem auto_synthesis_by_kind
        (g : Generator) (T : rtype) (count : Z) (s s' : nat) (r : list Value) :
  count < 2 ^ 63 ->
  Generate g T count s = Ok (r, s') ->
  forall (i : nat) (inst : Value),
    r !! i = Some inst ->
    exists vs,
      inst = VStruct vs /\
      forall (j : nat) (f : StructField),
        TypeFields T !! j = Some f -> CanSet f = true ->
        customs g !! Name f = None -> defaults g !! Name f = None ->
        exists v, vs !! j = Some v /\ auto_synthesized f (Z.of_nat i) v.
Proof.
  intros Hcount H i inst Hi.
  apply Generate_Ok in H as (_ & Hlen & Hall).
  assert (Hlt : (i < length r)%nat) by (eapply lookup_lt_Some; eauto).
  destruct (Hall i inst Hi) as (si & si' & Hfill).
  apply fillStruct_Ok in Hfill as (_ & vs & -> & _ & Hfields).
  exists vs. split; [reflexivity|].
  intros j f Hj Hset Hc Hd. destruct (Hfields j f Hj) as (v & Hv & HR).
  exists v. split; [exact Hv|].
  eapply Resolved_auto_synthesized; eauto. lia.
Qed.
End Resolution.

(** ** Two runs of the same generator *)

Section Determinism.
Context {host : Host}.

Lemma insert_agree (P : nat -> Prop) (i : nat) (x : Value) (vs1 vs2 : list Value) :
  length vs1 = length vs2 ->
  (forall j, ~ P j -> vs1 !! j = vs2 !! j) ->
  forall j, ~ P j -> <[i := x]> vs1 !! j = <[i := x]> vs2 !! j.
Proof.
  intros Hlen Hagree j Hj. rewrite !list_lookup_insert, Hlen.
  destruct (decide _); [reflexivity | apply Hagree; exact Hj].
Qed.

(** Two runs of the field loop from instances that agree outside [P]
    end alike, provided the [time.Time] fields lie inside [P]. *)
Lemma fillFields_same_outcome (g : Generator) (fs : list StructField) (index : Z)
      (P : nat -> Prop) :
  forall (i : nat) (vs1 vs2 : list Value) (s1 s2 : nat),
    length vs1 = length vs2 ->
    (forall j, ~ P j -> vs1 !! j = vs2 !! j) ->
    (forall k f, fs !! k = Some f -> Type_ f = timeType -> P (i + k)%nat) ->
    same_outcome
      (fun a b => length a = length b /\ forall j, ~ P j -> a !! j = b !! j)
      (fillFields g fs i index vs1 s1) (fillFields g fs i index vs2 s2).
Proof.
  induction fs as [|f0 rest IH]; intros i vs1 vs2 s1 s2 Hlen Hagree Htime.
  - simpl. split; assumption.
  - assert (Hrest : forall k f, rest !! k = Some f -> Type_ f = timeType ->
                                P (S i + k)%nat).
    { intros k f Hk Hf. replace (S i + k)%nat with (i + S k)%nat by lia.
      apply (Htime (S k) f Hk Hf). }
    assert (Hsame : forall x s1' s2',
               same_outcome
                 (fun a b => length a = length b /\ forall j, ~ P j -> a !! j = b !! j)
                 (fillFields g rest (S i) index (<[i := x]> vs1) s1')
                 (fillFields g rest (S i) index (<[i := x]> vs2) s2')).
    { intros x s1' s2'. apply IH; [|apply insert_agree; assumption|exact Hrest].
      rewrite !length_insert. exact Hlen. }
    simpl. destruct (CanSet f0); simpl; [|apply IH; assumption].
    destruct (customs g !! Name f0) as [customFn|].
    { unfold bind, lift. destruct (customFn index) as [x|p]; [|reflexivity].
      destruct (Value_Set (Type_ f0) x) as [field|p]; [|reflexivity].
      apply Hsame. }
    destruct (defaults g !! Name f0) as [defaultVal|].
    { unfold bind, lift.
      destruct (Value_Set (Type_ f0) defaultVal) as [field|p]; [|reflexivity].
      apply Hsame. }
    destruct (autoFill_runs f0 index s1 s2) as (w1 & w2 & s1' & s2' & H1 & H2 & Hw).
    unfold bind. rewrite H1, H2.
    destruct Hw as [<- | (Ht & v1 & v2 & -> & ->)].
    + destruct w1 as [x|]; [apply Hsame | apply IH; assumption].
    + apply IH; [rewrite !length_insert; exact Hlen | | exact Hrest].
      intros j Hj.
      assert (Hne : i <> j).
      { intros ->. apply Hj. specialize (Htime 0%nat f0 eq_refl Ht).
        rewrite Nat.add_0_r in Htime. exact Htime. }
      rewrite !list_lookup_insert_ne by exact Hne. apply Hagree. exact Hj.
Qed.

Lemma fillStruct_same_outcome (g : Generator) (T : rtype) (index : Z) (s1 s2 : nat) :
  same_outcome (same_but_time T)
               (fillStruct g T (Zero T) index s1) (fillStruct g T (Zero T) index s2).
Proof.
  unfold fillStruct, bind at 1 3, lift.
  destruct (NumField T) as [n|p] eqn:Hn; [|reflexivity].
  apply NumField_Ok in Hn. rewrite (Zero_struct_kind T Hn).
  set (zs := map (fun f => Zero (Type_ f)) (TypeFields T)).
  pose proof (fillFields_same_outcome g (TypeFields T) index
                (fun j => exists f, TypeFields T !! j = Some f /\ Type_ f = timeType)
                0%nat zs zs s1 s2 eq_refl (fun _ _ => eq_refl)) as H.
  unfold bind, ret.
  destruct (fillFields g (TypeFields T) 0 index zs s1) as [[a1 t1]|p1];
    destruct (fillFields g (TypeFields T) 0 index zs s2) as [[a2 t2]|p2];
    simpl in *; try (apply H; eauto).
  destruct H as [Hlen Hagree]; [eauto|].
  exists a1, a2. split; [reflexivity|]. split; [reflexivity|]. split; [exact Hlen|].
  intros j f Hj Hne. apply Hagree. intros (f' & Hj' & Ht). congruence.
Qed.

Lemma collect_same_outcome {A} (R : A -> A -> Prop) (f : Z -> M A) :
  (forall i s1 s2, same_outcome R (f i s1) (f i s2)) ->
  forall (n : nat) (i : Z) (s1 s2 : nat),
    same_outcome (Forall2 R) (collect n i f s1) (collect n i f s2).
Proof.
  intros Hf. induction n as [|n IH]; intros i s1 s2; simpl.
  - constructor.
  - unfold bind, ret. specialize (Hf i s1 s2).
    destruct (f i s1) as [[e1 t1]|p1], (f i s2) as [[e2 t2]|p2];
      simpl in Hf; try contradiction; [|exact Hf].
    specialize (IH (i + 1) t1 t2).
    destruct (collect n (i + 1) f t1) as [[es1 u1]|q1],
             (collect n (i + 1) f t2) as [[es2 u2]|q2];
      simpl in IH; try contradiction; [|exact IH].
    simpl. constructor; assumption.
Qed.

(** C3: with the defaults and the custom generators fixed, two calls of
    [Generate] with the same count, whatever the clock shows at each,
    end alike: both panic with the same value, or both return sequences
    of the same length whose instances agree, index for index, on every
    field that is not a [time.Time]. *)
Theorem Generate_deterministic (g : Generator) (T : rtype) (count : Z) (s1 s2 : nat) :
  same_outcome (Forall2 (same_but_time T))
               (Generate g T count s1) (Generate g T count s2).
Proof.
  rewrite !Generate_collect. destruct (len_out_of_range T count); [reflexivity|].
  apply collect_same_outcome. intros i t1 t2. apply fillStruct_same_outcome.
Qed.
End Determinism.

(** ** Fields that cannot be set *)

Section Unsettable.
Context {host : Host}.

(** The field loop consults the override maps only under the names of
    settable fields. *)
Lemma fillFields_ext (g g' : Generator) (fs : list StructField) (index : Z) :
  (forall f, f ∈ fs -> CanSet f = true ->
             customs g' !! Name f = customs g !! Name f /\
             defaults g' !! Name f = defaults g !! Name f) ->
  forall (i : nat) (vs : list Value) (s : nat),
    fillFields g' fs i index vs s = fillFields g fs i index vs s.
Proof.
  induction fs as [|f0 rest IH]; intros Hsame i vs s; [reflexivity|].
  assert (Hrest : forall i vs s,
             fillFields g' rest i index vs s = fillFields g rest i index vs s).
  { apply IH. intros f Hf. apply Hsame. right. exact Hf. }
  simpl. destruct (CanSet f0) eqn:Hset; simpl; [|apply Hrest].
  destruct (Hsame f0 (list_elem_of_here _ _) Hset) as [-> ->].
  destruct (customs g !! Name f0) as [customFn|].
  { unfold bind. destruct (lift (customFn index) s) as [[x s1]|p]; [|reflexivity].
    destruct (lift (Value_Set (Type_ f0) x) s1) as [[field s2]|p]; [|reflexivity].
    apply Hrest. }
  destruct (defaults g !! Name f0) as [defaultVal|].
  { unfold bind.
    destruct (lift (Value_Set (Type_ f0) defaultVal) s) as [[field s2]|p]; [|reflexivity].
    apply Hrest. }
  unfold bind. destruct (autoFill f0 index s) as [[w s1]|p]; [|reflexivity].
  apply Hrest.
Qed.

Lemma fillStruct_ext (g g' : Generator) (T : rtype) (elem : Value) (index : Z) (s : nat) :
  (forall f, f ∈ TypeFields T -> CanSet f = true ->
             customs g' !! Name f = customs g !! Name f /\
             defaults g' !! Name f = defaults g !! Name f) ->
  fillStruct g' T elem index s = fillStruct g T elem index s.
Proof.
  intros Hsame. unfold fillStruct, bind at 1 3.
  destruct (lift (NumField T) s) as [[n s1]|p]; [|reflexivity].
  destruct elem; try reflexivity.
  unfold bind. rewrite (fillFields_ext g g' _ index Hsame). reflexivity.
Qed.

Lemma collect_ext {A} (f f' : Z -> M A) :
  (forall i s, f' i s = f i s) ->
  forall (n : nat) (i : Z) (s : nat), collect n i f' s = collect n i f s.
Proof.
  intros Hf. induction n as [|n IH]; intros i s; simpl; [reflexivity|].
  unfold bind. rewrite Hf. destruct (f i s) as [[e s1]|p]; [|reflexivity].
  rewrite IH. reflexivity.
Qed.

(** C4: in every instance that [Generate] returns, every field that
    cannot be set (an unexported field) holds the zero value of its
    type; and the entries of the override maps under names of no
    settable field are inert: a generator that differs only in such
    entries returns the same instances, with no error. *)
Theorem unsettable_fields_stay_zero
        (g : Generator) (T : rtype) (count : Z) (s s' : nat) (r : list Value) :
  Generate g T count s = Ok (r, s') ->
  (forall (i : nat) (inst : Value),
      r !! i = Some inst ->
      exists vs,
        inst = VStruct vs /\
        forall (j : nat) (f : StructField),
          TypeFields T !! j = Some f -> CanSet f = false ->
          vs !! j = Some (Zero (Type_ f))) /\
  (forall g' : Generator,
      (forall f, f ∈ TypeFields T -> CanSet f = true ->
                 customs g' !! Name f = customs g !! Name f /\
                 defaults g' !! Name f = defaults g !! Name f) ->
      Generate g' T count s = Ok (r, s')).
Proof.
  intros H. split.
  - intros i inst Hi.
    apply Generate_Ok in H as (_ & _ & Hall).
    destruct (Hall i inst Hi) as (si & si' & Hfill).
    apply fillStruct_Ok in Hfill as (_ & vs & -> & _ & Hfields).
    exists vs. split; [reflexivity|].
    intros j f Hj Hset. destruct (Hfields j f Hj) as (v & Hv & HR).
    destruct HR; congruence.
  - intros g' Hsame. rewrite <- H. rewrite !Generate_collect.
    destruct (len_out_of_range T count); [reflexivity|].
    apply collect_ext. intros i t. apply fillStruct_ext. exact Hsame.
Qed.
End Unsettable.

(** ** The builder *)

Lemma rbind_Ok {A B} (r : Result A) (k : A -> Result B) (b : B) :
  rbind r k = Ok b <-> exists a, r = Ok a /\ k a = Ok b.
Proof.
  destruct r as [a|p]; simpl; split.
  - eauto.
  - intros (a' & [= <-] & Hk). exact Hk.
  - discriminate.
  - intros (a' & Ha & _). discriminate.
Qed.

(** The only panic of the seeding loop is that of [Interface]. *)
Lemma seedDefaults_Panic (fs : list StructField) :
  forall (vs : list Value) (d : gmap string Dyn) (p : PanicValue),
    seedDefaults fs vs d = Panic p -> p = unexported_panic.
Proof.
  induction fs as [|f rest IH]; intros vs d p H; simpl in H; [discriminate|].
  destruct vs as [|v vs']; [discriminate|].
  destruct (IsZero (Type_ f) v); simpl in H; [eapply IH; exact H|].
  unfold Interface in H. destruct (IsExported f); simpl in H.
  - destruct (TypeKind (Type_ f)); simpl in H; eapply IH; exact H.
  - injection H as <-. reflexivity.
Qed.

Lemma seedDefaults_unexported (fs : list StructField) :
  forall (vs : list Value) (d : gmap string Dyn) (k : nat) (f : StructField) (v : Value),
    fs !! k = Some f -> vs !! k = Some v ->
    IsExported f = false -> IsZero (Type_ f) v = false ->
    seedDefaults fs vs d = Panic unexported_panic.
Proof.
  induction fs as [|f0 rest IH]; intros vs d k f v Hf Hv He Hz; [discriminate|].
  destruct vs as [|v0 vs']; [discriminate|].
  destruct k as [|k]; simpl in Hf, Hv.
  - injection Hf as ->. injection Hv as ->.
    simpl. rewrite Hz. simpl. unfold Interface. rewrite He. reflexivity.
  - simpl. destruct (IsZero (Type_ f0) v0); simpl; [eapply IH; eauto|].
    destruct (Interface f0 v0) as [x|p] eqn:Hi; simpl; [eapply IH; eauto|].
    unfold Interface in Hi. destruct (IsExported f0); simpl in Hi.
    + destruct (TypeKind (Type_ f0)); discriminate.
    + injection Hi as <-. reflexivity.
Qed.

(** C5, where the code departs from it: [WithDefaults] panics on a
    prototype that holds a non-zero value in a field that is not
    exported, instead of copying the non-zero fields into the defaults;
    no builder is returned. *)
Theorem WithDefaults_unexported_field_panics
        (T : rtype) (b : Builder) (vs : list Value)
        (k : nat) (f : StructField) (v : Value) :
  TypeKind T = Kind.Struct ->
  TypeFields T !! k = Some f -> vs !! k = Some v ->
  IsExported f = false -> IsZero (Type_ f) v = false ->
  WithDefaults T b (VStruct vs) = Panic unexported_panic.
Proof.
  intros HT Hf Hv He Hz. unfold WithDefaults, ValueOf. rewrite HT.
  unfold NumField. rewrite HT. simpl.
  rewrite (seedDefaults_unexported _ _ _ k f v Hf Hv He Hz). reflexivity.
Qed.

(** What the seeding loop does when it succeeds: every non-zero field of
    the prototype is exported and entered under its name, the names of
    zero fields and all other names keep their entry. *)
Lemma seedDefaults_Ok (fs : list StructField) :
  forall (vs : list Value) (d d' : gmap string Dyn),
    seedDefaults fs vs d = Ok d' ->
    length vs = length fs -> NoDup (map Name fs) ->
    (forall name, name ∉ map Name fs -> d' !! name = d !! name) /\
    (forall (k : nat) (f : StructField) (v : Value),
        fs !! k = Some f -> vs !! k = Some v ->
        if IsZero (Type_ f) v then d' !! Name f = d !! Name f
        else exists x, Interface f v = Ok x /\ d' !! Name f = Some x).
Proof.
  induction fs as [|f0 rest IH]; intros vs d d' H Hlen Hnd.
  - simpl in H. injection H as <-. split; [reflexivity|]. intros k f v Hk. discriminate.
  - destruct vs as [|v0 vs']; [discriminate|].
    simpl in Hlen. injection Hlen as Hlen.
    simpl in Hnd. apply NoDup_cons in Hnd as [Hnotin Hnd].
    simpl in H.
    assert (Hgen : forall d0,
               seedDefaults rest vs' d0 = Ok d' ->
               (forall name, name <> Name f0 -> d0 !! name = d !! name) ->
               (if IsZero (Type_ f0) v0 then d0 !! Name f0 = d !! Name f0
                else exists x, Interface f0 v0 = Ok x /\ d0 !! Name f0 = Some x) ->
               (forall name, name ∉ map Name (f0 :: rest) -> d' !! name = d !! name) /\
               (forall (k : nat) (f : StructField) (v : Value),
                   (f0 :: rest) !! k = Some f -> (v0 :: vs') !! k = Some v ->
                   if IsZero (Type_ f) v then d' !! Name f = d !! Name f
                   else exists x, Interface f v = Ok x /\ d' !! Name f = Some x)).
    { intros d0 Hrest Hother Hat.
      destruct (IH vs' d0 d' Hrest Hlen Hnd) as [Hout Hin]. split.
      - intros name Hname. simpl in Hname. apply not_elem_of_cons in Hname as [Hne Hname].
        rewrite (Hout name Hname). apply Hother. exact Hne.
      - intros [|k] f v Hf Hv; simpl in Hf, Hv.
        + injection Hf as <-. injection Hv as <-.
          rewrite (Hout (Name f0) Hnotin). exact Hat.
        + specialize (Hin k f v Hf Hv).
          assert (Hne : Name f <> Name f0).
          { intros Heq. apply Hnotin. rewrite <- Heq.
            apply list_elem_of_fmap. exists f. split; [reflexivity|].
            eapply list_elem_of_lookup_2. exact Hf. }
          rewrite <- (Hother (Name f) Hne). exact Hin. }
    destruct (IsZero (Type_ f0) v0) eqn:Hz; simpl in H.
    + apply (Hgen d H); reflexivity.
    + apply rbind_Ok in H as (x & Hx & H).
      apply (Hgen _ H).
      * intros name Hne. apply lookup_insert_ne. congruence.
      * exists x. split; [exact Hx|]. apply lookup_insert_eq.
Qed.

Lemma applyModifiers_app (ms ms' : list (Value -> Z -> Result Value))
      (elem : Value) (index : Z) :
  applyModifiers (ms ++ ms') elem index =
  rbind (applyModifiers ms elem index) (fun e => applyModifiers ms' e index).
Proof.
  revert elem. induction ms as [|m rest IH]; intros elem; simpl; [reflexivity|].
  destruct (m elem index) as [e|p]; simpl; [apply IH | reflexivity].
Qed.

Lemma seedDefaults_total (fs : list StructField) :
  forall (vs : list Value) (d : gmap string Dyn),
    (forall (k : nat) (f : StructField) (v : Value),
        fs !! k = Some f -> vs !! k = Some v -> IsZero (Type_ f) v = false ->
        IsExported f = true) ->
    exists d', seedDefaults fs vs d = Ok d'.
Proof.
  induction fs as [|f0 rest IH]; intros vs d Hexp; simpl; [eauto|].
  destruct vs as [|v0 vs']; [eauto|].
  assert (Hrest : forall d0, exists d', seedDefaults rest vs' d0 = Ok d').
  { intros d0. apply IH. intros k f v Hf Hv. apply (Hexp (S k) f v Hf Hv). }
  destruct (IsZero (Type_ f0) v0) eqn:Hz; simpl; [apply Hrest|].
  unfold Interface. rewrite (Hexp 0%nat f0 v0 eq_refl eq_refl Hz). simpl.
  destruct (TypeKind (Type_ f0)); simpl; apply Hrest.
Qed.

(** On a prototype whose non-zero fields are all exported, [WithDefaults]
    enters exactly the non-zero fields as defaults and changes nothing
    else.  Zero is what [IsZero] reports: a field that holds negative
    zero enters no default. *)
Lemma WithDefaults_copies_nonzero (T : rtype) (b : Builder) (vs : list Value) :
  TypeKind T = Kind.Struct ->
  length vs = length (TypeFields T) -> NoDup (map Name (TypeFields T)) ->
  (forall (k : nat) (f : StructField) (v : Value),
      TypeFields T !! k = Some f -> vs !! k = Some v -> IsZero (Type_ f) v = false ->
      IsExported f = true) ->
  exists b',
    WithDefaults T b (VStruct vs) = Ok b' /\
    modifiers b' = modifiers b /\ customs (gen b') = customs (gen b) /\
    (forall name, name ∉ map Name (TypeFields T) ->
                  defaults (gen b') !! name = defaults (gen b) !! name) /\
    (forall (k : nat) (f : StructField) (v : Value),
        TypeFields T !! k = Some f -> vs !! k = Some v ->
        if IsZero (Type_ f) v then defaults (gen b') !! Name f = defaults (gen b) !! Name f
        else exists x, Interface f v = Ok x /\ defaults (gen b') !! Name f = Some x).
Proof.
  intros HT Hlen Hnd Hexp.
  destruct (seedDefaults_total (TypeFields T) vs (defaults (gen b)) Hexp) as [d' Hd'].
  destruct (seedDefaults_Ok _ _ _ _ Hd' Hlen Hnd) as [Hout Hin].
  eexists. split.
  - unfold WithDefaults, ValueOf. rewrite HT. unfold NumField. rewrite HT. simpl.
    rewrite Hd'. simpl. reflexivity.
  - simpl. split; [reflexivity|]. split; [reflexivity|]. split; assumption.
Qed.

Section Building.
Context {host : Host}.

Lemma Builder_Generate_Ok (b : Builder) (T : rtype) (count : Z) (s s' : nat)
      (r : list Value) :
  Builder_Generate b T count s = Ok (r, s') ->
  0 <= count /\ length r = Z.to_nat count /\
  forall (i : nat) (inst : Value),
    r !! i = Some inst ->
    exists si si', generateSingle b T (Z.of_nat i) si = Ok (inst, si').
Proof.
  rewrite Builder_Generate_collect.
  destruct (len_out_of_range T count) eqn:E; [discriminate|].
  intros H. apply len_in_range in E. split; [lia|]. split.
  - eapply collect_length. exact H.
  - intros i inst Hi.
    destruct (collect_lookup _ _ _ _ _ _ H i inst Hi) as (si & si' & Hf).
    exists si, si'. exact Hf.
Qed.

(** C6: [With] appends to the modifiers and leaves the generator alone,
    so modifiers accumulate; every instance a builder returns is made by
    [generateSingle] at its index; and [generateSingle] returns an
    instance exactly when the fields are first resolved and then the
    modifiers run one after the other in registration order: after
    [With m1] and [With m2] the instance returned is the result of [m2]
    on the result of [m1].  Two modifiers assigning the same field leave
    it holding what the second assigned. *)
Theorem modifiers_apply_in_order
        (b : Builder) (m1 m2 : Value -> Z -> Result Value)
        (T : rtype) (index : Z) (s : nat) :
  modifiers (With (With b m1) m2) = (modifiers b ++ [m1; m2])%list /\
  gen (With (With b m1) m2) = gen b /\
  (forall (count : Z) (r : list Value) (s' : nat),
      Builder_Generate (With (With b m1) m2) T count s = Ok (r, s') ->
      forall (i : nat) (inst : Value),
        r !! i = Some inst ->
        exists si si',
          generateSingle (With (With b m1) m2) T (Z.of_nat i) si = Ok (inst, si')) /\
  (forall (inst : Value) (s' : nat),
      generateSingle (With (With b m1) m2) T index s = Ok (inst, s') <->
      exists elem e0 e1,
        fillStruct (gen b) T (Zero T) index s = Ok (elem, s') /\
        applyModifiers (modifiers b) elem index = Ok e0 /\
        m1 e0 index = Ok e1 /\ m2 e1 index = Ok inst) /\
  (forall (j : nat) (x1 x2 : Value) (inst : Value) (s' : nat),
      modifiers b = [] -> m1 = setField j x1 -> m2 = setField j x2 ->
      generateSingle (With (With b m1) m2) T index s = Ok (inst, s') ->
      exists vs, inst = VStruct vs /\
                 ((j < length (TypeFields T))%nat -> vs !! j = Some x2)).
Proof.
  assert (Hmods : modifiers (With (With b m1) m2) = (modifiers b ++ [m1; m2])%list).
  { simpl. rewrite <- app_assoc. reflexivity. }
  assert (Hsingle : forall (inst : Value) (s' : nat),
             generateSingle (With (With b m1) m2) T index s = Ok (inst, s') <->
             exists elem e0 e1,
               fillStruct (gen b) T (Zero T) index s = Ok (elem, s') /\
               applyModifiers (modifiers b) elem index = Ok e0 /\
               m1 e0 index = Ok e1 /\ m2 e1 index = Ok inst).
  { intros inst s'. unfold generateSingle. rewrite Hmods, bind_Ok. simpl gen.
    split.
    - intros (elem & s1 & Hfill & Hmod). apply lift_Ok in Hmod as [Hmod ->].
      rewrite applyModifiers_app in Hmod.
      apply rbind_Ok in Hmod as (e0 & H0 & Hmod). simpl in Hmod.
      apply rbind_Ok in Hmod as (e1 & H1 & Hmod).
      apply rbind_Ok in Hmod as (e2 & H2 & [= <-]).
      exists elem, e0, e1. auto.
    - intros (elem & e0 & e1 & Hfill & H0 & H1 & H2).
      exists elem, s'. split; [exact Hfill|]. apply lift_Ok. split; [|reflexivity].
      rewrite applyModifiers_app, H0. simpl. rewrite H1. simpl. rewrite H2.
      reflexivity. }
  split; [exact Hmods|]. split; [reflexivity|]. split; [|split; [exact Hsingle|]].
  - intros count r s' H i inst Hi.
    apply Builder_Generate_Ok in H as (_ & _ & Hall). apply (Hall i inst Hi).
  - intros j x1 x2 inst s' Hnil -> -> H.
    apply Hsingle in H as (elem & e0 & e1 & Hfill & H0 & H1 & H2).
    rewrite Hnil in H0. injection H0 as <-.
    apply fillStruct_Ok in Hfill as (_ & vs & -> & Hlen & _).
    simpl in H1. injection H1 as <-. simpl in H2. injection H2 as <-.
    eexists. split; [reflexivity|]. intros Hj.
    apply list_lookup_insert_eq. rewrite length_insert, Hlen. exact Hj.
Qed.

(** C7: [Generate] with count [0] returns the empty sequence, for a
    generator and for a builder; and [Generate] with count [1] returns
    the one-element sequence of what [GenerateOne] returns from the same
    state: both fill one instance at index [0] under the same
    overrides. *)
Theorem count_boundaries (g : Generator) (b : Builder) (T : rtype) (s : nat) :
  Generate g T 0 s = Ok ([], s) /\
  Builder_Generate b T 0 s = Ok ([], s) /\
  Generate g T 1 s = (x <- GenerateOne g T ;; ret [x]) s /\
  Builder_Generate b T 1 s = (x <- Builder_GenerateOne b T ;; ret [x]) s.
Proof.
  rewrite !Generate_collect, !Builder_Generate_collect.
  assert (H0 : len_out_of_range T 0 = false) by (apply len_in_range; lia).
  assert (H1 : len_out_of_range T 1 = false) by (apply len_in_range; lia).
  rewrite H0, H1. simpl.
  unfold GenerateOne, Builder_GenerateOne, bind, ret.
  split; [reflexivity|]. split; [reflexivity|]. split; reflexivity.
Qed.
End Building.

(** ** Failures *)

Section Failures.
Context {host : Host}.

Lemma Value_Set_unassignable (T : rtype) (x : Dyn) :
  unassignable T x -> Value_Set T x = Panic (mismatch_panic T x).
Proof.
  unfold unassignable, AssignableTo, Value_Set, mismatch_panic.
  destruct x as [[V xv]|]; [|reflexivity].
  intros H. apply orb_false_elim in H as [-> ->]. reflexivity.
Qed.

Lemma fillFields_app (g : Generator) (fs1 fs2 : list StructField) (index : Z) :
  forall (i : nat) (vs : list Value) (s : nat),
    fillFields g (fs1 ++ fs2) i index vs s =
    (vs1 <- fillFields g fs1 i index vs ;;
     fillFields g fs2 (i + length fs1) index vs1) s.
Proof.
  induction fs1 as [|f0 rest IH]; intros i vs s.
  - simpl. unfold bind, ret. rewrite Nat.add_0_r. reflexivity.
  - assert (Hrest : forall vs' s',
               fillFields g (rest ++ fs2) (S i) index vs' s' =
               (vs1 <- fillFields g rest (S i) index vs' ;;
                fillFields g fs2 (i + length (f0 :: rest)) index vs1) s').
    { intros vs' s'. rewrite IH. simpl length.
      replace (S i + length rest)%nat with (i + S (length rest))%nat by lia.
      reflexivity. }
    cbn [app fillFields]. unfold bind in Hrest |- *.
    destruct (negb (CanSet f0)); [apply Hrest|].
    destruct (customs g !! Name f0) as [customFn|].
    { destruct (lift (customFn index) s) as [[x s1]|p]; [|reflexivity].
      destruct (lift (Value_Set (Type_ f0) x) s1) as [[field s2]|p]; [|reflexivity].
      apply Hrest. }
    destruct (defaults g !! Name f0) as [defaultVal|].
    { destruct (lift (Value_Set (Type_ f0) defaultVal) s) as [[field s2]|p];
        [|reflexivity].
      apply Hrest. }
    destruct (autoFill f0 index s) as [[w s1]|p]; [|reflexivity].
    apply Hrest.
Qed.

(** The field loop panics at a settable field whose override cannot be
    assigned. *)
Lemma fillFields_unassignable (g : Generator) (f : StructField) (rest : list StructField)
      (i : nat) (index : Z) (vs : list Value) (s : nat) (x : Dyn) :
  CanSet f = true -> override g f index = Some (Ok x) -> unassignable (Type_ f) x ->
  fillFields g (f :: rest) i index vs s = Panic (mismatch_panic (Type_ f) x).
Proof.
  intros Hset Hov Hun. simpl. rewrite Hset. simpl.
  pose proof (Value_Set_unassignable _ _ Hun) as Hpanic.
  unfold override in Hov.
  destruct (customs g !! Name f) as [customFn|].
  - injection Hov as Hov. unfold bind, lift. rewrite Hov, Hpanic. reflexivity.
  - destruct (defaults g !! Name f) as [defaultVal|]; [|discriminate].
    injection Hov as ->. unfold bind, lift. rewrite Hpanic. reflexivity.
Qed.

Lemma fillStruct_unassignable (g : Generator) (T : rtype) (index : Z) (s : nat)
      (j : nat) (f : StructField) (x : Dyn) :
  TypeKind T = Kind.Struct ->
  TypeFields T !! j = Some f -> CanSet f = true ->
  override g f index = Some (Ok x) -> unassignable (Type_ f) x ->
  match fillFields g (take j (TypeFields T)) 0 index
                   (map (fun f => Zero (Type_ f)) (TypeFields T)) s with
  | Ok _ => fillStruct g T (Zero T) index s = Panic (mismatch_panic (Type_ f) x)
  | Panic p => fillStruct g T (Zero T) index s = Panic p
  end.
Proof.
  intros HT Hj Hset Hov Hun.
  set (zs := map (fun f => Zero (Type_ f)) (TypeFields T)).
  pose proof (fillFields_app g (take j (TypeFields T)) (f :: drop (S j) (TypeFields T))
                index 0 zs s) as Happ.
  rewrite (take_drop_middle _ _ _ Hj) in Happ.
  unfold fillStruct, NumField. rewrite HT, (Zero_struct_kind T HT). fold zs.
  unfold bind, lift in Happ |- *. rewrite Happ.
  destruct (fillFields g (take j (TypeFields T)) 0 index zs s) as [[vs1 s1]|p];
    [|reflexivity].
  rewrite (fillFields_unassignable g f _ _ index vs1 s1 x Hset Hov Hun).
  reflexivity.
Qed.

Lemma collect_panics {A} (f : Z -> M A) :
  forall (n k : nat) (i : Z),
    (k < n)%nat ->
    (forall s, exists p, f (i + Z.of_nat k) s = Panic p) ->
    forall s, exists p, collect n i f s = Panic p.
Proof.
  induction n as [|n IH]; intros k i Hk Hf s; [lia|].
  simpl. unfold bind.
  destruct k as [|k].
  - destruct (Hf s) as [p Hp]. rewrite Z.add_0_r in Hp. rewrite Hp. eauto.
  - destruct (f i s) as [[e s1]|p]; [|eauto].
    destruct (IH k (i + 1) ltac:(lia)) with (s := s1) as [p Hp].
    + intros t. destruct (Hf t) as [q Hq]. exists q. rewrite <- Hq. f_equal. lia.
    + rewrite Hp. eauto.
Qed.

(** C8, amended: when the override of a settable field (the custom
    generator's result at the index, or else the default) is a value
    that cannot be assigned to the field's type, filling the instance
    panics: nothing is coerced or swallowed.  Unless an earlier field
    has panicked already, the panic is that of [reflect]'s [Set], a
    message made of the value's type and the field's type (for a nil
    value, the error of a call on the zero Value); it does not name the
    field.  [Generate] panics for every count that reaches the index. *)
Theorem unassignable_override_panics
        (g : Generator) (T : rtype) (index : Z) (s : nat)
        (j : nat) (f : StructField) (x : Dyn) :
  TypeKind T = Kind.Struct ->
  TypeFields T !! j = Some f -> CanSet f = true ->
  override g f index = Some (Ok x) -> unassignable (Type_ f) x ->
  Value_Set (Type_ f) x = Panic (mismatch_panic (Type_ f) x) /\
  match fillFields g (take j (TypeFields T)) 0 index
                   (map (fun f => Zero (Type_ f)) (TypeFields T)) s with
  | Ok _ => fillStruct g T (Zero T) index s = Panic (mismatch_panic (Type_ f) x)
  | Panic p => fillStruct g T (Zero T) index s = Panic p
  end /\
  (forall count : Z, 0 <= index < count -> exists p, Generate g T count s = Panic p).
Proof.
  intros HT Hj Hset Hov Hun.
  split; [apply Value_Set_unassignable; exact Hun|].
  split; [apply fillStruct_unassignable; assumption|].
  intros count Hc. rewrite Generate_collect.
  destruct (len_out_of_range T count); [eauto|].
  apply (collect_panics _ (Z.to_nat count) (Z.to_nat index) 0); [lia|].
  intros t. rewrite Z.add_0_l, Z2Nat.id by lia.
  pose proof (fillStruct_unassignable g T index t j f x HT Hj Hset Hov Hun) as H.
  destruct (fillFields g (take j (TypeFields T)) 0 index
              (map (fun f0 => Zero (Type_ f0)) (TypeFields T)) t); eauto.
Qed.

(** C9, amended: for every negative count, [Generate] panics with the
    runtime error of [make] for a negative length, for a generator and
    for a builder, before any instance is filled; no sequence is
    returned. *)
Theorem negative_count_panics (g : Generator) (b : Builder) (T : rtype) (count : Z)
        (s : nat) :
  count < 0 ->
  Generate g T count s = Panic (RuntimeError "makeslice: len out of range") /\
  Builder_Generate b T count s = Panic (RuntimeError "makeslice: len out of range").
Proof.
  intros Hc. rewrite Generate_collect, Builder_Generate_collect.
  rewrite (len_negative T count Hc). split; reflexivity.
Qed.
End Failures.

(** ** Slices of any type *)

Section Slices.
Context {host : Host}.

Lemma generatePrimitive_value (T : rtype) (i : Z) :
  0 <= i < 2 ^ 63 - 1 ->
  exists v, generatePrimitive T i = Ok v /\ primitive_synthesized T i v.
Proof.
  intros Hi. destruct T as [str k fs].
  unfold generatePrimitive, primitive_synthesized. cbn [TypeKind].
  rewrite (int_add_index i Hi), rem2_even.
  assert (Hn : 0 <= i + 1 < 2 ^ 63) by lia.
  assert (H64 : 2 ^ 63 < 2 ^ 64) by (apply Z.pow_lt_mono_r; lia).
  destruct k; cbn [SetString SetInt SetUint SetFloat SetBool];
    rewrite ?(int64_index _ Hn), ?(uint64_index _ Hn);
    eexists; (split; [reflexivity|]); cbv zeta;
    try reflexivity;
    try (rewrite wrap_signed_small; [reflexivity|lia|change (64 - 1) with 63; lia]);
    try (rewrite wrap_unsigned_small; [reflexivity|lia]);
    (split; [reflexivity|]; intros Hfit;
     rewrite ?wrap_signed_small, ?wrap_unsigned_small; [reflexivity|lia..]).
Qed.

Lemma collect_lift_total {A} (f : Z -> Result A) :
  forall (n : nat) (i : Z) (s : nat),
    (forall k : nat, (k < n)%nat -> exists v, f (i + Z.of_nat k) = Ok v) ->
    exists r, collect n i (fun i => lift (f i)) s = Ok (r, s).
Proof.
  induction n as [|n IH]; intros i s Hf; simpl; [unfold ret; eauto|].
  destruct (Hf 0%nat ltac:(lia)) as [v Hv]. rewrite Z.add_0_r in Hv.
  destruct (IH (i + 1) s) as [r Hr].
  { intros k Hk. destruct (Hf (S k) ltac:(lia)) as [v' Hv'].
    exists v'. rewrite <- Hv'. f_equal. lia. }
  exists (v :: r). unfold bind, lift, ret. rewrite Hv.
  unfold lift in Hr. rewrite Hr. reflexivity.
Qed.

Lemma GenerateSlice_collect (T : rtype) (count : Z) (s : nat) :
  TypeKind T <> Kind.Struct ->
  GenerateSlice T count s =
  if len_out_of_range T count then Panic (RuntimeError "makeslice: len out of range")
  else collect (Z.to_nat count) 0 (fun i => lift (generatePrimitive T i)) s.
Proof.
  intros HT. unfold GenerateSlice, make_slice.
  destruct (len_out_of_range T count); [reflexivity|].
  destruct T as [str k fs]; destruct k; try (exfalso; apply HT; reflexivity);
    match goal with
    | |- context [Zero ?T0] => rewrite <- (for_lt_collect _ count (Zero T0)); reflexivity
    end.
Qed.

(** C10, amended: for a count that is not negative and that [make] can
    allocate at the type, [GenerateSlice] at a struct type returns what
    [Generate] returns for a fresh generator; at any other type it
    returns [count] elements, the one at index [i] being: for a string
    type the text "text_" followed by [i+1] in decimal; for an integer
    type [i+1] reduced to the width of the type, which is [i+1] itself
    whenever [i+1] fits the type; for float64 the product of [i+1] and
    [1.1], rounded to single precision for float32; for bool [true] when
    [i] is even; for any other kind the zero value. *)
Theorem GenerateSlice_by_kind (T : rtype) (count : Z) (s : nat) :
  0 <= count <= Z.pos (make_limit T) -> count < 2 ^ 63 ->
  (TypeKind T = Kind.Struct -> GenerateSlice T count s = Generate New T count s) /\
  (TypeKind T <> Kind.Struct ->
   exists r,
     GenerateSlice T count s = Ok (r, s) /\
     length r = Z.to_nat count /\
     forall (i : nat) (v : Value),
       r !! i = Some v -> primitive_synthesized T (Z.of_nat i) v).
Proof.
  intros Hc Hint. apply len_in_range in Hc as Hrange. split.
  - intros HT. unfold GenerateSlice, make_slice, ValueOf.
    rewrite Hrange, HT. cbn [kindOf]. rewrite HT. reflexivity.
  - intros HT. rewrite (GenerateSlice_collect T count s HT), Hrange.
    destruct (collect_lift_total (generatePrimitive T) (Z.to_nat count) 0 s) as [r Hr].
    { intros k Hk. destruct (generatePrimitive_value T (0 + Z.of_nat k)) as (v & Hv & _);
        [lia | eauto]. }
    exists r. split; [exact Hr|]. split; [eapply collect_length; exact Hr|].
    intros i v Hi.
    assert (Hlt : (i < Z.to_nat count)%nat).
    { rewrite <- (collect_length _ _ _ _ _ _ Hr). eapply lookup_lt_Some. exact Hi. }
    destruct (collect_lookup _ _ _ _ _ _ Hr i v Hi) as (si & si' & Hv).
    apply lift_Ok in Hv as [Hv _]. rewrite Z.add_0_l in Hv.
    destruct (generatePrimitive_value T (Z.of_nat i)) as (v' & Hv' & Hsyn); [lia|].
    congruence.
Qed.
End Slices.

(** ** Concrete runs *)

Section Samples.
#[local] Existing Instance sample_host.

(** [Generate(5)] on a fresh generator: integers 1..5, names "name_1" to
    "name_5", booleans alternating from [true]. *)
Example Generate_five_accounts :
  Generate New Account 5 0%nat =
  Ok ([ VStruct [VInt 1; VString "name_1"; VBool true];
        VStruct [VInt 2; VString "name_2"; VBool false];
        VStruct [VInt 3; VString "name_3"; VBool true];
        VStruct [VInt 4; VString "name_4"; VBool false];
        VStruct [VInt 5; VString "name_5"; VBool true] ], 0%nat).
Proof. vm_compute. reflexivity. Qed.

Lemma resolution_precedence_witness :
  exists r s',
    Generate sample_generator User 2 0%nat = Ok (r, s') /\
    forall (i : nat) (inst : Value),
      r !! i = Some inst ->
      exists vs,
        inst = VStruct vs /\
        forall (j : nat) (f : StructField),
          TypeFields User !! j = Some f -> CanSet f = true ->
          exists v, vs !! j = Some v /\
                    resolves_by_precedence sample_generator f (Z.of_nat i) v.
Proof.
  eexists _, _. split; [reflexivity|].
  eapply (resolution_precedence sample_generator User 2 0%nat).
  reflexivity.
Defined.

Lemma auto_synthesis_by_kind_witness :
  exists r s',
    5 < 2 ^ 63 /\
    Generate New User 5 0%nat = Ok (r, s') /\
    forall (i : nat) (inst : Value),
      r !! i = Some inst ->
      exists vs,
        inst = VStruct vs /\
        forall (j : nat) (f : StructField),
          TypeFields User !! j = Some f -> CanSet f = true ->
          customs New !! Name f = None -> defaults New !! Name f = None ->
          exists v, vs !! j = Some v /\ auto_synthesized f (Z.of_nat i) v.
Proof.
  eexists _, _. split; [reflexivity|]. split; [reflexivity|].
  eapply (auto_synthesis_by_kind New User 5 0%nat); reflexivity.
Defined.

(** The claim of C2 fails for an [int8] field: at index 127 the field
    holds -128, not 128. *)
Lemma int8_field_wraps_at_127 :
  instance_at (Generate New Small 128 0%nat) 127 = Some (VStruct [VInt (-128)]) /\
  VInt (-128) <> VInt (127 + 1).
Proof. split; [vm_compute; reflexivity | discriminate]. Qed.

(** Two calls at different states of the clock: the instances differ in
    [CreatedAt] only. *)
Example Generate_twice :
  instance_at (Generate New User 1 0%nat) 0 =
    Some (VStruct [VInt 1; VString "username_1";
                   VFloat (S754_finite false 4953959590107546 (-52)); VBool true;
                   VStruct [VUint 1000; VInt 7; VOther false "time.Local"];
                   VString ""; VNilIface]) /\
  instance_at (Generate New User 1 5%nat) 0 =
    Some (VStruct [VInt 1; VString "username_1";
                   VFloat (S754_finite false 4953959590107546 (-52)); VBool true;
                   VStruct [VUint 1005; VInt 7; VOther false "time.Local"];
                   VString ""; VNilIface]).
Proof. split; vm_compute; reflexivity. Qed.

Lemma unsettable_fields_stay_zero_witness :
  exists r s',
    Generate secret_generator User 2 0%nat = Ok (r, s') /\
    (forall (i : nat) (inst : Value),
        r !! i = Some inst ->
        exists vs,
          inst = VStruct vs /\
          forall (j : nat) (f : StructField),
            TypeFields User !! j = Some f -> CanSet f = false ->
            vs !! j = Some (Zero (Type_ f))) /\
    (forall g' : Generator,
        (forall f, f ∈ TypeFields User -> CanSet f = true ->
                   customs g' !! Name f = customs secret_generator !! Name f /\
                   defaults g' !! Name f = defaults secret_generator !! Name f) ->
        Generate g' User 2 0%nat = Ok (r, s')).
Proof.
  eexists _, _. split; [reflexivity|].
  apply (unsettable_fields_stay_zero secret_generator User 2 0%nat). reflexivity.
Defined.

Lemma WithDefaults_unexported_field_panics_witness :
  TypeKind User = Kind.Struct /\
  TypeFields User !! 5%nat = Some (MkField "secret" false tString) /\
  sample_prototype !! 5%nat = Some (VString "s3cr3t") /\
  IsExported (MkField "secret" false tString) = false /\
  IsZero tString (VString "s3cr3t") = false /\
  WithDefaults User Build (VStruct sample_prototype) = Panic unexported_panic.
Proof.
  repeat (split; [reflexivity|]).
  apply (WithDefaults_unexported_field_panics User Build sample_prototype 5
           (MkField "secret" false tString) (VString "s3cr3t")); reflexivity.
Defined.

Lemma modifiers_apply_in_order_witness :
  exists inst s',
    generateSingle (With (With Build (setField 0 (VInt 7))) (setField 0 (VInt 9)))
                   Person 0 0%nat = Ok (inst, s') /\
    exists vs, inst = VStruct vs /\
               ((0 < length (TypeFields Person))%nat -> vs !! 0%nat = Some (VInt 9)).
Proof.
  eexists _, _. split; [reflexivity|].
  destruct (modifiers_apply_in_order Build (setField 0 (VInt 7)) (setField 0 (VInt 9))
              Person 0 0%nat) as (_ & _ & _ & _ & H).
  eapply (H 0%nat (VInt 7) (VInt 9)); reflexivity.
Defined.

Lemma unassignable_override_panics_witness :
  TypeKind Person = Kind.Struct /\
  TypeFields Person !! 0%nat = Some (MkField "Age" true tInt) /\
  CanSet (MkField "Age" true tInt) = true /\
  override mismatched_generator (MkField "Age" true tInt) 0
    = Some (Ok (Some (tString, VString "x"))) /\
  unassignable tInt (Some (tString, VString "x")) /\
  Value_Set tInt (Some (tString, VString "x"))
    = Panic (mismatch_panic tInt (Some (tString, VString "x"))) /\
  fillStruct mismatched_generator Person (Zero Person) 0 0%nat
    = Panic (mismatch_panic tInt (Some (tString, VString "x"))) /\
  (forall count : Z,
      0 <= 0 < count -> exists p, Generate mismatched_generator Person count 0%nat = Panic p).
Proof.
  repeat (split; [reflexivity|]).
  apply (unassignable_override_panics mismatched_generator Person 0 0%nat 0
           (MkField "Age" true tInt) (Some (tString, VString "x"))); reflexivity.
Defined.

(** The claim of C8 fails on what the error identifies: the panic for a
    string assigned to the field [Age] is a plain message made of the two
    types, and it does not mention [Age]. *)
Lemma mismatch_message_omits_field_name :
  Generate mismatched_generator Person 1 0%nat =
    Panic (PanicMsg "reflect.Set: value of type string is not assignable to type int") /\
  contains "reflect.Set: value of type string is not assignable to type int" "Age" = false.
Proof. split; vm_compute; reflexivity. Qed.

Lemma negative_count_panics_witness :
  -1 < 0 /\
  Generate New User (-1) 0%nat = Panic (RuntimeError "makeslice: len out of range") /\
  Builder_Generate Build User (-1) 0%nat
    = Panic (RuntimeError "makeslice: len out of range").
Proof.
  split; [reflexivity|].
  apply (negative_count_panics New Build User (-1) 0%nat). reflexivity.
Defined.

(** The claim of C9 fails: for count -1 no sequence is returned. *)
Lemma negative_count_returns_nothing :
  ~ exists r s', Generate New User (-1) 0%nat = Ok (r, s').
Proof. intros (r & s' & H). vm_compute in H. discriminate. Qed.

Lemma GenerateSlice_by_kind_witness :
  0 <= 3 <= Z.pos (make_limit tInt8) /\ 3 < 2 ^ 63 /\
  (TypeKind tInt8 = Kind.Struct ->
   GenerateSlice tInt8 3 0%nat = Generate New tInt8 3 0%nat) /\
  (TypeKind tInt8 <> Kind.Struct ->
   exists r,
     GenerateSlice tInt8 3 0%nat = Ok (r, 0%nat) /\
     length r = Z.to_nat 3 /\
     forall (i : nat) (v : Value),
       r !! i = Some v -> primitive_synthesized tInt8 (Z.of_nat i) v).
Proof.
  split; [split; discriminate|]. split; [reflexivity|].
  apply (GenerateSlice_by_kind tInt8 3 0%nat); [split; discriminate | reflexivity].
Defined.

(** The claim of C10 fails for [int8]: the element at index 127 is
    -128, not 128. *)
Lemma GenerateSlice_int8_wraps_at_127 :
  instance_at (GenerateSlice tInt8 128 0%nat) 127 = Some (VInt (-128)) /\
  VInt (-128) <> VInt (127 + 1).
Proof. split; [vm_compute; reflexivity | discriminate]. Qed.
End Samples.


(** * Further properties *)

(** ** Zero values and type identity *)

Lemma Kind_eqb_refl (k : Kind.t) : Kind.eqb k k = true.
Proof. destruct k; reflexivity. Qed.

Fixpoint rtype_eqb_refl (a : rtype) {struct a} : rtype_eqb a a = true
with field_eqb_refl (f : StructField) {struct f} : field_eqb f f = true.
Proof.
- destruct a as [s k fs]. simpl.
  rewrite String.eqb_refl, Kind_eqb_refl. simpl.
  induction fs as [|f r IH]; [reflexivity|].
  rewrite (field_eqb_refl f). exact IH.
- destruct f as [n e t]. simpl.
  rewrite String.eqb_refl, (rtype_eqb_refl t). destruct e; reflexivity.
Qed.

(** [IsZero] holds of the zero value of every type. *)
Fixpoint IsZero_Zero (t : rtype) {struct t} : IsZero t (Zero t) = true.
Proof.
destruct t as [s k fs].
destruct k; try reflexivity.
rewrite Zero_struct. cbn [IsZero TypeFields].
generalize (MkType s Kind.Struct fs). intros t0.
induction fs as [|[n e ft] r IH]; [reflexivity|].
cbn [map Type_]. rewrite (IsZero_Zero ft), orb_true_r. exact IH.
Qed.

(** A value of the field's own type is stored as it is. *)
Lemma Value_Set_same_type {host : Host} (T : rtype) (v : Value) :
  Value_Set T (Some (T, v)) = Ok v.
Proof. unfold Value_Set. rewrite rtype_eqb_refl. reflexivity. Qed.

(** ** When generation returns *)

Section Returning.
Context {host : Host}.

Lemma fillFields_total (g : Generator) (fs : list StructField) (index : Z) :
  (forall f, f ∈ fs -> CanSet f = true -> override_assignable g f index) ->
  forall (i : nat) (vs : list Value) (s : nat),
    exists vs' s', fillFields g fs i index vs s = Ok (vs', s').
Proof.
induction fs as [|f0 rest IH]; intros Hok i vs s; simpl.
- unfold ret. eauto.
- assert (Hrest : forall i vs s, exists vs' s',
             fillFields g rest i index vs s = Ok (vs', s')).
  { apply IH. intros f Hf. apply Hok. right. exact Hf. }
  destruct (CanSet f0) eqn:Hset; simpl; [|apply Hrest].
  specialize (Hok f0 (list_elem_of_here _ _) Hset).
  unfold override_assignable, override in Hok.
  destruct (customs g !! Name f0) as [customFn|].
  { destruct Hok as (x & v & [= Hx] & Hv).
    unfold bind, lift. rewrite Hx, Hv. apply Hrest. }
  destruct (defaults g !! Name f0) as [defaultVal|].
  { destruct Hok as (x & v & [= <-] & Hv).
    unfold bind, lift. rewrite Hv. apply Hrest. }
  destruct (autoFill_runs f0 index s s) as (w & _ & s1 & _ & Hw & _).
  unfold bind. rewrite Hw. apply Hrest.
Qed.

Lemma fillStruct_total (g : Generator) (T : rtype) (index : Z) (s : nat) :
  TypeKind T = Kind.Struct ->
  (forall f, f ∈ TypeFields T -> CanSet f = true -> override_assignable g f index) ->
  exists inst s', fillStruct g T (Zero T) index s = Ok (inst, s').
Proof.
intros HT Hok. unfold fillStruct, NumField. rewrite HT, (Zero_struct_kind T HT).
destruct (fillFields_total g (TypeFields T) index Hok 0
            (map (fun f => Zero (Type_ f)) (TypeFields T)) s) as (vs' & s' & Hf).
unfold bind, lift, ret. rewrite Hf. eauto.
Qed.

Lemma Resolved_override_assignable (g : Generator) (f : StructField) (index : Z)
      (old new : Value) :
  CanSet f = true -> Resolved g f index old new -> override_assignable g f index.
Proof.
unfold override_assignable, override.
intros Hset [Hskip | fn x v Hs Hc Hx Hv | d v Hs Hc Hd Hv | s0 s1 w Hs Hc Hd Hw].
- congruence.
- rewrite Hc. eauto.
- rewrite Hc, Hd. eauto.
- rewrite Hc, Hd. exact I.
Qed.

Lemma collect_total {A} (f : Z -> M A) :
  forall (n : nat) (i : Z),
    (forall (k : nat) (s : nat), (k < n)%nat ->
                                 exists e s', f (i + Z.of_nat k) s = Ok (e, s')) ->
    forall s, exists r s', collect n i f s = Ok (r, s').
Proof.
induction n as [|n IH]; intros i Hf s; simpl; [unfold ret; eauto|].
destruct (Hf 0%nat s ltac:(lia)) as (e & s1 & He). rewrite Z.add_0_r in He.
destruct (IH (i + 1)) with (s := s1) as (r & s2 & Hr).
{ intros k t Hk. destruct (Hf (S k) t ltac:(lia)) as (e' & t' & He').
  exists e', t'. rewrite <- He'. f_equal. lia. }
unfold bind, ret. rewrite He, Hr. eauto.
Qed.

Lemma Generate_total (g : Generator) (T : rtype) (count : Z) (s : nat) :
  0 <= count <= Z.pos (make_limit T) ->
  (forall i : Z,
      0 <= i < count ->
      TypeKind T = Kind.Struct /\
      forall f, f ∈ TypeFields T -> CanSet f = true -> override_assignable g f i) ->
  exists r s', Generate g T count s = Ok (r, s').
Proof.
intros Hc Hall. rewrite Generate_collect.
apply len_in_range in Hc as Hrange. rewrite Hrange.
apply collect_total. intros k t Hk.
destruct (Hall (0 + Z.of_nat k) ltac:(lia)) as [HT Hok].
apply fillStruct_total; assumption.
Qed.

(** [Generate] returns exactly when [make] returns the slice (the count
    is not negative and not beyond what the host can allocate at the
    type) and, at every index below the count, the type is a struct type
    and the override of each settable field, if it has one, returns a
    value that can be assigned to the field: absent overrides, only
    [make] can fail. *)
Theorem Generate_returns_iff (g : Generator) (T : rtype) (count : Z) (s : nat) :
  (exists r s', Generate g T count s = Ok (r, s')) <->
  0 <= count <= Z.pos (make_limit T) /\
  forall i : Z,
    0 <= i < count ->
    TypeKind T = Kind.Struct /\
    forall f, f ∈ TypeFields T -> CanSet f = true -> override_assignable g f i.
Proof.
split.
- intros (r & s' & H).
  assert (Hrange : 0 <= count <= Z.pos (make_limit T)).
  { apply len_in_range. rewrite Generate_collect in H.
    destruct (len_out_of_range T count); [discriminate | reflexivity]. }
  apply Generate_Ok in H as (Hc & Hlen & Hall).
  split; [exact Hrange|]. intros i Hi.
  destruct (lookup_lt_is_Some_2 r (Z.to_nat i)) as [inst Hinst]; [lia|].
  destruct (Hall _ _ Hinst) as (si & si' & Hfill). rewrite Z2Nat.id in Hfill by lia.
  apply fillStruct_Ok in Hfill as (HT & vs & _ & _ & Hfields).
  split; [exact HT|]. intros f Hf Hset.
  apply list_elem_of_lookup in Hf as [j Hj].
  destruct (Hfields j f Hj) as (new & _ & HR).
  eapply Resolved_override_assignable; eauto.
- intros [Hc Hall]. apply Generate_total; assumption.
Qed.

Lemma GenerateSlice_struct (T : rtype) (count : Z) (s : nat) :
  TypeKind T = Kind.Struct -> GenerateSlice T count s = Generate New T count s.
Proof.
intros HT. unfold GenerateSlice, ValueOf. rewrite HT. cbn [kindOf]. rewrite HT.
rewrite (Generate_collect New T count s). unfold bind, lift, make_slice.
destruct (len_out_of_range T count) eqn:E; [reflexivity|].
rewrite Generate_collect, E. reflexivity.
Qed.

Lemma override_New (f : StructField) (index : Z) : override_assignable New f index.
Proof. unfold override_assignable, override. simpl. rewrite !lookup_empty. exact I. Qed.

(** [GenerateSlice] returns for every count that is not negative and
    that [make] can allocate at the type, at every type, with [count]
    elements; so does [Generate] on a generator without overrides at a
    struct type. *)
Theorem GenerateSlice_returns (T : rtype) (count : Z) (s : nat) :
  0 <= count <= Z.pos (make_limit T) -> count < 2 ^ 63 ->
  (exists r s', GenerateSlice T count s = Ok (r, s') /\ length r = Z.to_nat count) /\
  (TypeKind T = Kind.Struct ->
   exists r s', Generate New T count s = Ok (r, s') /\ length r = Z.to_nat count).
Proof.
intros Hc Hint. apply len_in_range in Hc as Hrange.
assert (Hnew : TypeKind T = Kind.Struct ->
               exists r s', Generate New T count s = Ok (r, s') /\
                            length r = Z.to_nat count).
{ intros HT. destruct (Generate_total New T count s) as (r & s' & H); [exact Hc| |].
  - intros i Hi. split; [exact HT|]. intros f _ _. apply override_New.
  - exists r, s'. split; [exact H|]. apply Generate_Ok in H. tauto. }
split; [|exact Hnew].
destruct (TypeKind T) eqn:HT;
  try (rewrite (GenerateSlice_struct T count s HT); apply Hnew; reflexivity);
  (assert (Hns : TypeKind T <> Kind.Struct) by (rewrite HT; discriminate);
   rewrite (GenerateSlice_collect T count s Hns), Hrange;
   destruct (collect_lift_total (generatePrimitive T) (Z.to_nat count) 0 s) as [r Hr];
   [ intros k Hk;
     destruct (generatePrimitive_value T (0 + Z.of_nat k)) as (v & Hv & _); [lia | eauto]
   | exists r, s; split; [exact Hr | eapply collect_length; exact Hr] ]).
Qed.

Lemma fillStruct_non_struct (g : Generator) (T : rtype) (elem : Value) (index : Z)
      (s : nat) :
  TypeKind T <> Kind.Struct ->
  fillStruct g T elem index s
  = Panic (ValueError "reflect.Value.NumField" (TypeKind T)).
Proof.
intros HT. unfold fillStruct, NumField, bind, lift.
destruct (TypeKind T); try reflexivity. exfalso. apply HT. reflexivity.
Qed.

Lemma collect_first_panic {A} (f : Z -> M A) (n : nat) (i : Z) (s : nat) (p : PanicValue) :
  f i s = Panic p -> collect (S n) i f s = Panic p.
Proof. intros H. simpl. unfold bind. rewrite H. reflexivity. Qed.

(** At a type that is not a struct type, [GenerateOne] panics with
    reflect's error for [NumField] on a value of that kind, for a
    generator and for a builder, and so does [Generate] for every count
    of at least one that [make] can allocate at the type: the overrides
    and the modifiers are never reached. *)
Theorem non_struct_type_panics (g : Generator) (b : Builder) (T : rtype) (count : Z)
        (s : nat) :
  TypeKind T <> Kind.Struct ->
  GenerateOne g T s = Panic (ValueError "reflect.Value.NumField" (TypeKind T)) /\
  Builder_GenerateOne b T s = Panic (ValueError "reflect.Value.NumField" (TypeKind T)) /\
  (0 < count <= Z.pos (make_limit T) ->
   Generate g T count s = Panic (ValueError "reflect.Value.NumField" (TypeKind T)) /\
   Builder_Generate b T count s
   = Panic (ValueError "reflect.Value.NumField" (TypeKind T))).
Proof.
intros HT.
assert (Hsingle : forall i t, generateSingle b T i t
                              = Panic (ValueError "reflect.Value.NumField" (TypeKind T))).
{ intros i t. unfold generateSingle, bind.
  rewrite (fillStruct_non_struct _ T _ i t HT). reflexivity. }
split; [apply fillStruct_non_struct; exact HT|].
split; [apply Hsingle|].
intros Hc. rewrite Generate_collect, Builder_Generate_collect.
assert (Hrange : len_out_of_range T count = false) by (apply len_in_range; lia).
rewrite Hrange.
destruct (Z.to_nat count) as [|n] eqn:Hn; [lia|].
split; apply collect_first_panic; [apply fillStruct_non_struct; exact HT | apply Hsingle].
Qed.

Lemma fillFields_unsettable (g : Generator) (fs : list StructField) (index : Z) :
  (forall f, f ∈ fs -> CanSet f = false) ->
  forall (i : nat) (vs : list Value) (s : nat),
    fillFields g fs i index vs s = Ok (vs, s).
Proof.
induction fs as [|f0 rest IH]; intros Hno i vs s; simpl; [reflexivity|].
rewrite (Hno f0 (list_elem_of_here _ _)). simpl.
apply IH. intros f Hf. apply Hno. right. exact Hf.
Qed.

Lemma collect_const {A} (f : Z -> M A) (e : A) :
  (forall i s, f i s = Ok (e, s)) ->
  forall (n : nat) (i : Z) (s : nat), collect n i f s = Ok (replicate n e, s).
Proof.
intros Hf. induction n as [|n IH]; intros i s; simpl; [reflexivity|].
unfold bind, ret. rewrite Hf, IH. reflexivity.
Qed.

(** At a struct type with no settable field (all fields unexported, or
    no field at all), [Generate] returns [count] zero values whatever the
    overrides, for every count that is not negative and that [make] can
    allocate at the type: no override is consulted and only [make] can
    fail. *)
Theorem no_settable_field_gives_zero_values
        (g : Generator) (T : rtype) (count : Z) (s : nat) :
  TypeKind T = Kind.Struct ->
  (forall f, f ∈ TypeFields T -> CanSet f = false) ->
  0 <= count <= Z.pos (make_limit T) ->
  Generate g T count s = Ok (replicate (Z.to_nat count) (Zero T), s).
Proof.
intros HT Hno Hc. rewrite Generate_collect.
apply len_in_range in Hc as Hrange. rewrite Hrange.
apply collect_const. intros i t.
unfold fillStruct, NumField. rewrite HT, (Zero_struct_kind T HT).
unfold bind, lift, ret. rewrite (fillFields_unsettable g _ i Hno). reflexivity.
Qed.

(** The instance at an index does not depend on the count: two calls of
    [Generate] with different counts agree on every instance both
    return, outside the [time.Time] fields, and [GenerateOne] agrees with
    the first instance. *)
Theorem instance_independent_of_count
        (g : Generator) (T : rtype) (n m : Z) (s1 s2 s3 : nat)
        (r1 r2 : list Value) (s1' s2' : nat) :
  Generate g T n s1 = Ok (r1, s1') ->
  Generate g T m s2 = Ok (r2, s2') ->
  (forall (i : nat) (v1 v2 : Value),
      r1 !! i = Some v1 -> r2 !! i = Some v2 -> same_but_time T v1 v2) /\
  (forall (v1 : Value),
      r1 !! 0%nat = Some v1 ->
      exists v s3', GenerateOne g T s3 = Ok (v, s3') /\ same_but_time T v1 v).
Proof.
intros H1 H2.
apply Generate_Ok in H1 as (_ & _ & Hall1). apply Generate_Ok in H2 as (_ & _ & Hall2).
split.
- intros i v1 v2 Hv1 Hv2.
  destruct (Hall1 i v1 Hv1) as (t1 & t1' & Hf1).
  destruct (Hall2 i v2 Hv2) as (t2 & t2' & Hf2).
  pose proof (fillStruct_same_outcome g T (Z.of_nat i) t1 t2) as Hsame.
  rewrite Hf1, Hf2 in Hsame. exact Hsame.
- intros v1 Hv1. destruct (Hall1 0%nat v1 Hv1) as (t1 & t1' & Hf1).
  pose proof (fillStruct_same_outcome g T 0 t1 s3) as Hsame.
  change (Z.of_nat 0) with 0 in Hf1. rewrite Hf1 in Hsame. unfold GenerateOne.
  destruct (fillStruct g T (Zero T) 0 s3) as [[v s3']|p]; [|contradiction].
  exists v, s3'. split; [reflexivity | exact Hsame].
Qed.
End Returning.

(** ** Modifiers after generation *)

Lemma rbind_Ok_r {A} (r : Result A) : rbind r (fun a => Ok a) = r.
Proof. destruct r; reflexivity. Qed.

Lemma loop_ext {A} (body body' : Z -> A -> M A) :
  (forall i a s, body' i a s = body i a s) ->
  forall (n : nat) (i : Z) (a : A) (s : nat), loop n i body' a s = loop n i body a s.
Proof.
intros Hb. induction n as [|n IH]; intros i a s; simpl; [reflexivity|].
unfold bind. rewrite Hb. destruct (body i a s) as [[a' s1]|p]; [apply IH | reflexivity].
Qed.

(** A loop that stores at position [i] a value made in two steps. *)
Lemma for_lt_collect2 (f : Z -> M Value) (h : Value -> Z -> Result Value)
      (count : Z) (z : Value) (s : nat) :
  for_lt count
    (fun i result =>
       elem <- f i ;; elem <- lift (h elem i) ;; ret (<[Z.to_nat i := elem]> result))
    (replicate (Z.to_nat count) z) s =
  collect (Z.to_nat count) 0 (fun i => elem <- f i ;; lift (h elem i)) s.
Proof.
rewrite <- for_lt_collect with (z := z). unfold for_lt. apply loop_ext.
intros i a t. unfold bind, lift, ret.
destruct (f i t) as [[e t1]|p]; [|reflexivity].
destruct (h e i); reflexivity.
Qed.

(** Post-processing each collected value is post-processing the
    collection, when the collection succeeds. *)
Lemma collect_modify (ms : list (Value -> Z -> Result Value)) (f : Z -> M Value) :
  forall (n : nat) (i : Z) (s s' : nat) (r : list Value),
    collect n i f s = Ok (r, s') ->
    collect n i (fun i => elem <- f i ;; lift (applyModifiers ms elem i)) s =
    lift (modify_all ms r i) s'.
Proof.
set (f' := fun i : Z => elem <- f i ;; lift (applyModifiers ms elem i)).
induction n as [|n IH]; intros i s s' r H; simpl in H.
- apply ret_Ok in H as [-> ->]. reflexivity.
- apply bind_Ok in H as (e & s1 & He & H).
  apply bind_Ok in H as (es & s2 & Hes & H). apply ret_Ok in H as [-> ->].
  assert (Hf' : f' i s = lift (applyModifiers ms e i) s1).
  { unfold f', bind. rewrite He. reflexivity. }
  simpl. unfold bind at 1. rewrite Hf'. unfold lift at 1.
  destruct (applyModifiers ms e i) as [e'|p]; simpl; [|reflexivity].
  unfold bind. rewrite (IH _ _ _ _ Hes). unfold lift, ret.
  destruct (modify_all ms es (i + 1)); reflexivity.
Qed.

Section Modifying.
Context {host : Host}.

Lemma generateSingle_no_modifiers (b : Builder) (T : rtype) (i : Z) (s : nat) :
  modifiers b = [] -> generateSingle b T i s = fillStruct (gen b) T (Zero T) i s.
Proof.
intros Hnil. unfold generateSingle, bind, lift. rewrite Hnil.
destruct (fillStruct (gen b) T (Zero T) i s) as [[e s1]|p]; reflexivity.
Qed.

(** A builder without modifiers generates what its generator generates,
    panics included; in particular [Build] generates what [New] does. *)
Theorem Builder_without_modifiers (b : Builder) (T : rtype) (count : Z) (s : nat) :
  modifiers b = [] ->
  Builder_Generate b T count s = Generate (gen b) T count s /\
  Builder_GenerateOne b T s = GenerateOne (gen b) T s.
Proof.
intros Hnil. split; [|apply generateSingle_no_modifiers; exact Hnil].
rewrite Generate_collect, Builder_Generate_collect.
destruct (len_out_of_range T count); [reflexivity|].
apply collect_ext. intros i t. apply generateSingle_no_modifiers. exact Hnil.
Qed.

(** When the generator of a builder returns instances, the builder
    returns those instances with the modifiers applied to each, in index
    order, and reads the clock no further; it panics with the first
    modifier panic, if any. *)
Theorem Builder_Generate_after_Generate
        (b : Builder) (T : rtype) (count : Z) (s s' : nat) (r : list Value) :
  Generate (gen b) T count s = Ok (r, s') ->
  Builder_Generate b T count s = lift (modify_all (modifiers b) r 0) s'.
Proof.
rewrite Generate_collect, Builder_Generate_collect.
destruct (len_out_of_range T count); [discriminate|].
intros H. apply (collect_modify (modifiers b) _ _ _ _ _ _ H).
Qed.

Lemma GenerateSliceWith_collect (T : rtype) (count : Z)
      (modifier : option (Value -> Z -> Result Value)) (s : nat) :
  GenerateSliceWith T count modifier s =
  if len_out_of_range T count then Panic (RuntimeError "makeslice: len out of range")
  else collect (Z.to_nat count) 0
         (fun i =>
            elem <- match TypeKind T with
                    | Kind.Struct => fillStruct New T (Zero T) i
                    | _ => lift (generatePrimitive T i)
                    end ;;
            lift (match modifier with
                  | Some modifier => modifier elem i
                  | None => Ok elem
                  end)) s.
Proof.
unfold GenerateSliceWith, make_slice. destruct (len_out_of_range T count); [reflexivity|].
destruct T as [str k fs]; destruct k;
  match goal with
  | |- context [Zero ?T0] =>
      rewrite <- (for_lt_collect2 _ _ count (Zero T0)); reflexivity
  end.
Qed.

Lemma GenerateSlice_collect_any (T : rtype) (count : Z) (s : nat) :
  GenerateSlice T count s =
  if len_out_of_range T count then Panic (RuntimeError "makeslice: len out of range")
  else collect (Z.to_nat count) 0
         (fun i => match TypeKind T with
                   | Kind.Struct => fillStruct New T (Zero T) i
                   | _ => lift (generatePrimitive T i)
                   end) s.
Proof.
destruct (TypeKind T) eqn:HT;
  try (rewrite (GenerateSlice_struct T count s HT); apply Generate_collect);
  (assert (Hns : TypeKind T <> Kind.Struct) by (rewrite HT; discriminate);
   apply (GenerateSlice_collect T count s Hns)).
Qed.

(** [GenerateSliceWith] with the nil modifier is [GenerateSlice], at
    every type and for every count, panics included. *)
Theorem GenerateSliceWith_nil (T : rtype) (count : Z) (s : nat) :
  GenerateSliceWith T count None s = GenerateSlice T count s.
Proof.
rewrite GenerateSliceWith_collect, GenerateSlice_collect_any.
destruct (len_out_of_range T count); [reflexivity|].
apply collect_ext. intros i t.
generalize (match TypeKind T with
            | Kind.Struct => fillStruct New T (Zero T) i
            | _ => lift (generatePrimitive T i)
            end).
intros A. unfold bind, lift. destruct (A t) as [[e t1]|p]; reflexivity.
Qed.

(** When [GenerateSlice] returns elements, [GenerateSliceWith] with a
    modifier returns those elements with the modifier applied to each, in
    index order, at a struct type and at any other type; it panics with
    the first panic of the modifier, if any. *)
Theorem GenerateSliceWith_after_GenerateSlice
        (T : rtype) (count : Z) (modifier : Value -> Z -> Result Value)
        (s s' : nat) (r : list Value) :
  GenerateSlice T count s = Ok (r, s') ->
  GenerateSliceWith T count (Some modifier) s = lift (modify_all [modifier] r 0) s'.
Proof.
rewrite GenerateSliceWith_collect, GenerateSlice_collect_any.
destruct (len_out_of_range T count); [discriminate|].
intros H. rewrite <- (collect_modify [modifier] _ _ _ _ _ _ H).
apply collect_ext. intros i t.
generalize (match TypeKind T with
            | Kind.Struct => fillStruct New T (Zero T) i
            | _ => lift (generatePrimitive T i)
            end).
intros A. unfold bind. destruct (A t) as [[e t1]|p]; [|reflexivity].
simpl. rewrite rbind_Ok_r. reflexivity.
Qed.

(** At a struct type, [GenerateSliceWith] with a modifier is a fresh
    builder with that one modifier, for every count, panics included. *)
Theorem GenerateSliceWith_is_Builder
        (T : rtype) (count : Z) (modifier : Value -> Z -> Result Value) (s : nat) :
  TypeKind T = Kind.Struct ->
  GenerateSliceWith T count (Some modifier) s
  = Builder_Generate (With Build modifier) T count s.
Proof.
intros HT. rewrite GenerateSliceWith_collect, Builder_Generate_collect, HT.
destruct (len_out_of_range T count); [reflexivity|].
apply collect_ext. intros i t. unfold generateSingle, bind. simpl.
destruct (fillStruct New T (Zero T) i t) as [[e t1]|p]; [|reflexivity].
rewrite rbind_Ok_r. reflexivity.
Qed.

(** For every negative count, [GenerateSlice] and [GenerateSliceWith]
    panic with the runtime error of [make], at every type and whatever
    the modifier. *)
Theorem slices_negative_count_panic
        (T : rtype) (count : Z) (modifier : option (Value -> Z -> Result Value))
        (s : nat) :
  count < 0 ->
  GenerateSlice T count s = Panic (RuntimeError "makeslice: len out of range") /\
  GenerateSliceWith T count modifier s
  = Panic (RuntimeError "makeslice: len out of range").
Proof.
intros Hc. rewrite GenerateSliceWith_collect, GenerateSlice_collect_any.
rewrite (len_negative T count Hc). split; reflexivity.
Qed.
End Modifying.

(** ** Seeding defaults from a prototype *)

Lemma seedDefaults_zero (fs : list StructField) (d : gmap string Dyn) :
  seedDefaults fs (map (fun f => Zero (Type_ f)) fs) d = Ok d.
Proof.
induction fs as [|f rest IH]; simpl; [reflexivity|].
rewrite IsZero_Zero. simpl. exact IH.
Qed.

(** [WithDefaults] on the zero value of a struct type returns the
    builder unchanged, whether or not the type has unexported fields. *)
Theorem WithDefaults_zero_prototype (T : rtype) (b : Builder) :
  TypeKind T = Kind.Struct -> WithDefaults T b (Zero T) = Ok b.
Proof.
intros HT. unfold WithDefaults, ValueOf. rewrite HT.
unfold NumField. rewrite HT, (Zero_struct_kind T HT). simpl.
rewrite seedDefaults_zero. simpl. destruct b as [[d c] ms]. reflexivity.
Qed.

(** [WithDefaults] at a type that is neither a struct nor an interface
    panics with reflect's error for [NumField] on that kind, whatever the
    prototype; at an interface type with a nil prototype it panics with
    reflect's error for [Type] on the zero Value. *)
Theorem WithDefaults_wrong_type_panics (T : rtype) (b : Builder) (proto : Value) :
  (TypeKind T <> Kind.Struct -> TypeKind T <> Kind.Interface ->
   WithDefaults T b proto = Panic (ValueError "reflect.Value.NumField" (TypeKind T))) /\
  (TypeKind T = Kind.Interface ->
   WithDefaults T b VNilIface = Panic (ValueError "reflect.Value.Type" Kind.Invalid)).
Proof.
split.
- intros Hs Hi. unfold WithDefaults, ValueOf.
  destruct (TypeKind T) eqn:HT; try congruence;
    unfold NumField; rewrite HT; reflexivity.
- intros HT. unfold WithDefaults, ValueOf. rewrite HT. reflexivity.
Qed.

Lemma WithDefaults_Ok_inv (T : rtype) (b0 b : Builder) (vs : list Value) :
  WithDefaults T b0 (VStruct vs) = Ok b ->
  TypeKind T = Kind.Struct /\
  exists d,
    seedDefaults (TypeFields T) vs (defaults (gen b0)) = Ok d /\
    b = {| gen := {| defaults := d; customs := customs (gen b0) |};
           modifiers := modifiers b0 |}.
Proof.
unfold WithDefaults, ValueOf.
destruct (TypeKind T) eqn:HT; try discriminate;
  unfold NumField; rewrite HT; simpl; try discriminate.
intros H. apply rbind_Ok in H as (d & Hd & [= <-]).
split; [reflexivity|]. exists d. split; [exact Hd | reflexivity].
Qed.

Lemma Interface_Ok_inv (f : StructField) (v : Value) (x : Dyn) :
  Interface f v = Ok x -> TypeKind (Type_ f) <> Kind.Interface ->
  IsExported f = true /\ x = Some (Type_ f, v).
Proof.
unfold Interface. destruct (IsExported f); simpl; [|discriminate].
intros H Hk. split; [reflexivity|].
destruct (TypeKind (Type_ f)); try congruence.
Qed.

Section Seeding.
Context {host : Host}.

(** The round trip of a prototype through a builder without modifiers:
    in every instance generated after [WithDefaults], a field that held a
    non-zero value in the prototype, is not of interface type and has no
    custom generator holds that very value; a settable field that was
    zero in the prototype and had no default before is auto-synthesized
    as if no prototype had been given.  Zero is what [IsZero] reports: a
    [float64] field that held negative zero is auto-synthesized. *)
Theorem prototype_values_reach_instances
        (T : rtype) (b0 b : Builder) (proto : list Value)
        (count : Z) (s s' : nat) (r : list Value)
        (i : nat) (inst : Value) (k : nat) (f : StructField) (v : Value) :
  modifiers b0 = [] -> customs (gen b0) !! Name f = None ->
  WithDefaults T b0 (VStruct proto) = Ok b ->
  length proto = length (TypeFields T) -> NoDup (map Name (TypeFields T)) ->
  count < 2 ^ 63 ->
  Builder_Generate b T count s = Ok (r, s') -> r !! i = Some inst ->
  TypeFields T !! k = Some f -> proto !! k = Some v ->
  exists ws w,
    inst = VStruct ws /\ ws !! k = Some w /\
    (IsZero (Type_ f) v = false -> TypeKind (Type_ f) <> Kind.Interface -> w = v) /\
    (IsZero (Type_ f) v = true -> CanSet f = true -> defaults (gen b0) !! Name f = None ->
     auto_synthesized f (Z.of_nat i) w).
Proof.
intros Hmods Hcust Hwd Hlen Hnd Hcount Hgen Hi Hf Hv.
apply WithDefaults_Ok_inv in Hwd as (HT & d & Hd & ->).
destruct (seedDefaults_Ok _ _ _ _ Hd Hlen Hnd) as [_ Hin].
specialize (Hin k f v Hf Hv).
apply Builder_Generate_Ok in Hgen as (_ & Hlenr & Hall).
assert (Hlt : (i < length r)%nat) by (eapply lookup_lt_Some; eauto).
destruct (Hall i inst Hi) as (si & si' & Hsingle).
rewrite generateSingle_no_modifiers in Hsingle by exact Hmods.
apply fillStruct_Ok in Hsingle as (_ & ws & -> & _ & Hfields).
destruct (Hfields k f Hf) as (w & Hw & HR). simpl in HR.
exists ws, w. split; [reflexivity|]. split; [exact Hw|]. split.
- intros Hz Hk. rewrite Hz in Hin. destruct Hin as (x & Hx & Hdx).
  apply Interface_Ok_inv in Hx as [Hexp ->]; [|exact Hk].
  destruct HR as [Hskip | fn x w Hs Hc | dv w Hs Hc Hdv Hset | s0 s1 ow Hs Hc Hdv];
    simpl in *; try congruence.
  + unfold CanSet in Hskip. congruence.
  + rewrite Hdx in Hdv. injection Hdv as <-.
    rewrite Value_Set_same_type in Hset. congruence.
- intros Hz Hset Hnone. rewrite Hz in Hin.
  eapply Resolved_auto_synthesized; [lia | exact Hset | | | exact HR].
  + exact Hcust.
  + simpl. rewrite Hin. exact Hnone.
Qed.
End Seeding.

(** ** The overrides seen through [override] *)

Section Overrides.
Context {host : Host}.

(** The field loop depends on the generator only through the override
    of each settable field. *)
Lemma fillFields_ext_override (g g' : Generator) (fs : list StructField) (index : Z) :
  (forall f, f ∈ fs -> CanSet f = true -> override g' f index = override g f index) ->
  forall (i : nat) (vs : list Value) (s : nat),
    fillFields g' fs i index vs s = fillFields g fs i index vs s.
Proof.
induction fs as [|f0 rest IH]; intros Hsame i vs s; [reflexivity|].
assert (Hrest : forall i vs s,
           fillFields g' rest i index vs s = fillFields g rest i index vs s).
{ apply IH. intros f Hf. apply Hsame. right. exact Hf. }
simpl. destruct (CanSet f0) eqn:Hset; simpl; [|apply Hrest].
specialize (Hsame f0 (list_elem_of_here _ _) Hset). unfold override in Hsame.
assert (Hstep : forall x : Dyn,
           (field <- lift (Value_Set (Type_ f0) x) ;;
            fillFields g' rest (S i) index (<[i := field]> vs)) s =
           (field <- lift (Value_Set (Type_ f0) x) ;;
            fillFields g rest (S i) index (<[i := field]> vs)) s).
{ intros x. unfold bind, lift.
  destruct (Value_Set (Type_ f0) x); [apply Hrest | reflexivity]. }
destruct (customs g' !! Name f0) as [fn'|], (customs g !! Name f0) as [fn|].
- injection Hsame as Hsame. unfold bind at 1 3, lift at 1 3. rewrite Hsame.
  destruct (fn index) as [x|p]; [apply Hstep | reflexivity].
- destruct (defaults g !! Name f0) as [dv|]; [|discriminate].
  injection Hsame as Hsame. unfold bind at 1, lift at 1. rewrite Hsame. apply Hstep.
- destruct (defaults g' !! Name f0) as [dv'|]; [|discriminate].
  injection Hsame as Hsame. unfold bind at 3, lift at 3. rewrite <- Hsame. apply Hstep.
- destruct (defaults g' !! Name f0) as [dv'|], (defaults g !! Name f0) as [dv|];
    try discriminate.
  + injection Hsame as ->. apply Hstep.
  + unfold bind. destruct (autoFill f0 index s) as [[w s1]|p]; [apply Hrest | reflexivity].
Qed.

Lemma Generate_ext_override (g g' : Generator) (T : rtype) (count : Z) (s : nat) :
  (forall (index : Z) f,
      f ∈ TypeFields T -> CanSet f = true ->
      override g' f index = override g f index) ->
  Generate g' T count s = Generate g T count s.
Proof.
intros Hsame. rewrite !Generate_collect. destruct (len_out_of_range T count); [reflexivity|].
apply collect_ext. intros i t. unfold fillStruct, bind at 1 3.
destruct (lift (NumField T) t) as [[n t1]|p]; [|reflexivity].
destruct (Zero T); try reflexivity.
unfold bind. rewrite (fillFields_ext_override g g' _ i (Hsame i)). reflexivity.
Qed.

(** A default registered under a name that has a custom generator
    changes nothing in what [Generate] does: the custom generator shadows
    it, whichever of the two was registered first. *)
Theorem default_shadowed_by_custom
        (g : Generator) (name : string) (customFn : Z -> Result Dyn) (d : Dyn)
        (T : rtype) (count : Z) (s : nat) :
  Generate (SetDefaults (SetCustom g name customFn) name d) T count s
  = Generate (SetCustom g name customFn) T count s /\
  Generate (SetCustom (SetDefaults g name d) name customFn) T count s
  = Generate (SetCustom g name customFn) T count s.
Proof.
assert (Hsh : forall index f,
           override (SetDefaults (SetCustom g name customFn) name d) f index
           = override (SetCustom g name customFn) f index).
{ intros index f. unfold override, SetDefaults, SetCustom. simpl.
  destruct (decide (name = Name f)) as [<-|Hne].
  - rewrite lookup_insert_eq. reflexivity.
  - rewrite !lookup_insert_ne by exact Hne. reflexivity. }
split; apply Generate_ext_override; intros index f _ _; apply Hsh.
Qed.

(** A custom generator that returns the same value at every index
    behaves as a default with that value, under a name that has no
    custom generator yet. *)
Theorem constant_custom_is_default
        (g : Generator) (name : string) (d : Dyn) (T : rtype) (count : Z) (s : nat) :
  customs g !! name = None ->
  Generate (SetCustom g name (fun _ => Ok d)) T count s
  = Generate (SetDefaults g name d) T count s.
Proof.
intros Hc. apply Generate_ext_override. intros index f _ _.
unfold override, SetCustom, SetDefaults. simpl.
destruct (decide (name = Name f)) as [<-|Hne].
- rewrite !lookup_insert_eq, Hc. reflexivity.
- rewrite !lookup_insert_ne by exact Hne. reflexivity.
Qed.

(** The setters are upserts: of two values set under the same name the
    last one stays, values set under different names do not disturb each
    other, and the two setters write to maps of their own. *)
Theorem setters_are_upserts
        (g : Generator) (n1 n2 : string) (d1 d2 : Dyn) (f1 f2 : Z -> Result Dyn) :
  SetDefaults (SetDefaults g n1 d1) n1 d2 = SetDefaults g n1 d2 /\
  SetCustom (SetCustom g n1 f1) n1 f2 = SetCustom g n1 f2 /\
  (n1 <> n2 ->
   SetDefaults (SetDefaults g n1 d1) n2 d2 = SetDefaults (SetDefaults g n2 d2) n1 d1 /\
   SetCustom (SetCustom g n1 f1) n2 f2 = SetCustom (SetCustom g n2 f2) n1 f1 /\
   defaults (SetDefaults (SetDefaults g n1 d1) n2 d2) !! n1 = Some d1 /\
   customs (SetCustom (SetCustom g n1 f1) n2 f2) !! n1 = Some f1) /\
  SetCustom (SetDefaults g n1 d1) n2 f2 = SetDefaults (SetCustom g n2 f2) n1 d1 /\
  defaults (SetDefaults g n1 d1) !! n1 = Some d1 /\
  customs (SetCustom g n1 f1) !! n1 = Some f1 /\
  customs (SetDefaults g n1 d1) = customs g /\
  defaults (SetCustom g n1 f1) = defaults g.
Proof.
unfold SetDefaults, SetCustom. simpl.
split; [rewrite insert_insert_eq; reflexivity|].
split; [rewrite insert_insert_eq; reflexivity|].
split.
- intros Hne. split; [f_equal; apply insert_insert_ne; congruence|].
  split; [f_equal; apply insert_insert_ne; congruence|].
  split; rewrite lookup_insert_ne by congruence; apply lookup_insert_eq.
- split; [reflexivity|]. split; [apply lookup_insert_eq|].
  split; [apply lookup_insert_eq|]. split; reflexivity.
Qed.
End Overrides.

(** ** Timestamps *)

Section Timestamps.
Context {host : Host}.

Lemma autoFill_time (f : StructField) (index : Z) (s : nat) :
  Type_ f = timeType ->
  autoFill f index s = Ok (Some (timeValue (wall_clock s)), S s).
Proof.
destruct f as [n e t]. simpl. intros ->. reflexivity.
Qed.

Lemma autoFill_mono (f : StructField) (index : Z) (s s' : nat) (w : option Value) :
  autoFill f index s = Ok (w, s') -> (s <= s')%nat.
Proof.
destruct f as [n e [str k fs]]. unfold autoFill. cbn [Type_ TypeKind Name].
destruct k; unfold bind, lift, ret;
  try (intros [= _ <-]; apply Nat.le_refl).
destruct (rtype_eqb (MkType str Kind.Struct fs) timeType) eqn:E.
- unfold time_Now, Value_Set. rewrite E. intros [= _ <-]. lia.
- intros [= _ <-]. apply Nat.le_refl.
Qed.

(** The field loop only advances the clock, and a settable [time.Time]
    field without override holds a reading taken during the loop. *)
Lemma fillFields_time (g : Generator) (fs : list StructField) (index : Z) :
  forall (i : nat) (vs vs' : list Value) (s s' : nat),
    fillFields g fs i index vs s = Ok (vs', s') ->
    (s <= s')%nat /\
    forall (k : nat) (f : StructField),
      fs !! k = Some f -> (i + k < length vs)%nat ->
      CanSet f = true -> Type_ f = timeType ->
      customs g !! Name f = None -> defaults g !! Name f = None ->
      exists t, (s <= t < s')%nat /\ vs' !! (i + k)%nat = Some (timeValue (wall_clock t)).
Proof.
induction fs as [|f0 rest IH]; intros i vs vs' s s' H; simpl in H.
- apply ret_Ok in H as [-> ->]. split; [lia|]. intros k f Hk. discriminate.
- assert (Hstep : forall vs1 s1,
             fillFields g rest (S i) index vs1 s1 = Ok (vs', s') ->
             (s <= s1)%nat -> length vs1 = length vs ->
             (CanSet f0 = true -> Type_ f0 = timeType ->
              customs g !! Name f0 = None -> defaults g !! Name f0 = None ->
              (i < length vs)%nat ->
              exists t, (s <= t < s1)%nat /\ vs1 !! i = Some (timeValue (wall_clock t))) ->
             (s <= s')%nat /\
             forall (k : nat) (f : StructField),
               (f0 :: rest) !! k = Some f -> (i + k < length vs)%nat ->
               CanSet f = true -> Type_ f = timeType ->
               customs g !! Name f = None -> defaults g !! Name f = None ->
               exists t, (s <= t < s')%nat /\
                         vs' !! (i + k)%nat = Some (timeValue (wall_clock t))).
  { intros vs1 s1 Hrest Hle Hlen Hat.
    destruct (IH _ _ _ _ _ Hrest) as [Hle' Hfrom].
    destruct (fillFields_Ok _ _ _ _ _ _ _ _ Hrest) as (_ & Hbefore & _).
    split; [lia|].
    intros [|k] f Hk Hlt Hset Ht Hc Hd.
    - injection Hk as <-. rewrite Nat.add_0_r in *.
      destruct (Hat Hset Ht Hc Hd Hlt) as (t & Hbound & Hval).
      exists t. split; [lia|]. rewrite Hbefore by lia. exact Hval.
    - simpl in Hk. replace (i + S k)%nat with (S i + k)%nat in * by lia.
      destruct (Hfrom k f Hk ltac:(lia) Hset Ht Hc Hd) as (t & Hbound & Hval).
      exists t. split; [lia | exact Hval]. }
  destruct (CanSet f0) eqn:Hset; simpl in H.
  + destruct (customs g !! Name f0) as [customFn|] eqn:Hc.
    * run_ok H. apply (Hstep _ _ H); [lia | apply length_insert | congruence].
    * destruct (defaults g !! Name f0) as [defaultVal|] eqn:Hd.
      -- run_ok H. apply (Hstep _ _ H); [lia | apply length_insert | congruence].
      -- apply bind_Ok in H as (w & s1 & Hw & H).
         apply (Hstep _ _ H).
         ++ eapply autoFill_mono. exact Hw.
         ++ destruct w; [apply length_insert | reflexivity].
         ++ intros _ Ht _ _ Hlt. rewrite (autoFill_time f0 index s Ht) in Hw.
            injection Hw as <- <-. exists s. split; [lia|].
            apply list_lookup_insert_eq. exact Hlt.
  + apply (Hstep _ _ H); [lia | reflexivity | congruence].
Qed.

Lemma fillStruct_mono (g : Generator) (T : rtype) (elem : Value) (index : Z)
      (s s' : nat) (inst : Value) :
  fillStruct g T elem index s = Ok (inst, s') -> (s <= s')%nat.
Proof.
unfold fillStruct. intros H.
apply bind_Ok in H as (n & s1 & Hn & H). apply lift_Ok in Hn as [_ ->].
destruct elem; try (apply ret_Ok in H as [_ ->]; lia).
apply bind_Ok in H as (vs' & s2 & Hf & H). apply ret_Ok in H as [_ ->].
apply fillFields_time in Hf. tauto.
Qed.

Lemma collect_mono {A} (f : Z -> M A) :
  (forall i s s' e, f i s = Ok (e, s') -> (s <= s')%nat) ->
  forall (n : nat) (i : Z) (s s' : nat) (es : list A),
    collect n i f s = Ok (es, s') -> (s <= s')%nat.
Proof.
intros Hf. induction n as [|n IH]; intros i s s' es H; simpl in H.
- apply ret_Ok in H as [_ ->]. lia.
- apply bind_Ok in H as (e & s1 & He & H).
  apply bind_Ok in H as (es' & s2 & Hes & H). apply ret_Ok in H as [_ ->].
  apply Hf in He. apply IH in Hes. lia.
Qed.

(** Each element collected was made between the states the collection
    started and ended in, when the steps only advance the state. *)
Lemma collect_lookup_between {A} (f : Z -> M A) :
  (forall i s s' e, f i s = Ok (e, s') -> (s <= s')%nat) ->
  forall (n : nat) (i : Z) (s s' : nat) (es : list A),
    collect n i f s = Ok (es, s') ->
    forall (k : nat) (e : A), es !! k = Some e ->
      exists sk sk', (s <= sk)%nat /\ (sk' <= s')%nat /\
                     f (i + Z.of_nat k) sk = Ok (e, sk').
Proof.
intros Hf. induction n as [|n IH]; intros i s s' es H k e Hk; simpl in H.
- apply ret_Ok in H as [-> _]. discriminate.
- apply bind_Ok in H as (e0 & s1 & He & H).
  apply bind_Ok in H as (es' & s2 & Hes & H). apply ret_Ok in H as [-> ->].
  pose proof (Hf _ _ _ _ He) as Hle1.
  pose proof (collect_mono f Hf _ _ _ _ _ Hes) as Hle2.
  destruct k as [|k]; simpl in Hk.
  + injection Hk as <-. exists s, s1. rewrite Z.add_0_r. auto.
  + destruct (IH _ _ _ _ Hes k e Hk) as (sk & sk' & Hl & Hu & Hfk).
    exists sk, sk'. split; [lia|]. split; [lia|]. rewrite <- Hfk. f_equal. lia.
Qed.

(** [Generate] only advances the clock, and in every instance it
    returns, a settable [time.Time] field with neither a custom generator
    nor a default holds a reading of the clock taken during the call,
    with the local location, which is never the zero time. *)
Theorem time_field_holds_clock_reading
        (g : Generator) (T : rtype) (count : Z) (s s' : nat) (r : list Value)
        (i : nat) (inst : Value) (j : nat) (f : StructField) :
  Generate g T count s = Ok (r, s') -> r !! i = Some inst ->
  TypeFields T !! j = Some f ->
  CanSet f = true -> Type_ f = timeType ->
  customs g !! Name f = None -> defaults g !! Name f = None ->
  (s <= s')%nat /\
  exists vs t,
    inst = VStruct vs /\ (s <= t < s')%nat /\
    vs !! j = Some (timeValue (wall_clock t)) /\
    IsZero timeType (timeValue (wall_clock t)) = false.
Proof.
intros H Hi Hj Hset Ht Hc Hd. rewrite Generate_collect in H.
destruct (len_out_of_range T count); [discriminate|].
assert (Hmono : forall i s s' e,
           fillStruct g T (Zero T) i s = Ok (e, s') -> (s <= s')%nat).
{ intros. eapply fillStruct_mono; eauto. }
split; [eapply collect_mono; eauto|].
destruct (collect_lookup_between _ Hmono _ _ _ _ _ H i inst Hi)
  as (sk & sk' & Hl & Hu & Hfill).
unfold fillStruct in Hfill.
apply bind_Ok in Hfill as (n & s1 & Hn & Hfill). apply lift_Ok in Hn as [Hn ->].
apply NumField_Ok in Hn. rewrite (Zero_struct_kind T Hn) in Hfill.
apply bind_Ok in Hfill as (vs & s2 & Hf & Hfill). apply ret_Ok in Hfill as [-> ->].
apply fillFields_time in Hf as [_ Hfrom].
destruct (Hfrom j f Hj) as (t & Hb & Hval); try assumption.
{ simpl. rewrite length_map. eapply lookup_lt_Some. exact Hj. }
exists vs, t. split; [reflexivity|]. split; [lia|]. split; [exact Hval|].
unfold timeValue. simpl. rewrite !andb_false_r. reflexivity.
Qed.
End Timestamps.

(** ** Distinct values at distinct indices *)

Lemma to_int_not_nil (n : Z) : Z.to_int n <> Decimal.Pos Decimal.Nil /\
                               Z.to_int n <> Decimal.Neg Decimal.Nil.
Proof.
destruct n as [|p|p]; simpl; split; try discriminate;
  intros [= H]; exact (DecimalPos.Unsigned.to_uint_nonnil p H).
Qed.

(** [%d] prints different integers differently. *)
Lemma itoa_inj (n m : Z) : itoa n = itoa m -> n = m.
Proof.
unfold itoa. intros H. apply DecimalZ.to_int_inj.
destruct (to_int_not_nil n) as [Hn1 Hn2]. destruct (to_int_not_nil m) as [Hm1 Hm2].
pose proof (NilZero.isi _ Hn1 Hn2) as In. pose proof (NilZero.isi _ Hm1 Hm2) as Im.
rewrite H in In. congruence.
Qed.

Lemma append_inj_r (p a b : string) : (p ++ a = p ++ b)%string -> a = b.
Proof. induction p as [|c p IH]; simpl; [tauto|]. intros [= H]. apply IH. exact H. Qed.

Section Distinct.
Context {host : Host}.

(** In the instances [Generate] returns, a settable field of kind
    string, int, int64, uint or uint64 with neither a custom generator
    nor a default holds different values at different indices. *)
Theorem auto_values_distinct
        (g : Generator) (T : rtype) (count : Z) (s s' : nat) (r : list Value)
        (j : nat) (f : StructField) (i1 i2 : nat) (vs1 vs2 : list Value) :
  count < 2 ^ 63 ->
  Generate g T count s = Ok (r, s') ->
  TypeFields T !! j = Some f -> CanSet f = true ->
  customs g !! Name f = None -> defaults g !! Name f = None ->
  TypeKind (Type_ f) = Kind.String \/ TypeKind (Type_ f) = Kind.Int \/
  TypeKind (Type_ f) = Kind.Int64 \/ TypeKind (Type_ f) = Kind.Uint \/
  TypeKind (Type_ f) = Kind.Uint64 ->
  r !! i1 = Some (VStruct vs1) -> r !! i2 = Some (VStruct vs2) -> i1 <> i2 ->
  vs1 !! j <> vs2 !! j.
Proof.
intros Hcount H Hj Hset Hc Hd Hk H1 H2 Hne.
apply Generate_Ok in H as (_ & Hlen & Hall).
assert (Hvalue : forall i vs, r !! i = Some (VStruct vs) ->
                   exists v, vs !! j = Some v /\ auto_synthesized f (Z.of_nat i) v).
{ intros i vs Hi.
  assert (Hlt : (i < length r)%nat) by (eapply lookup_lt_Some; eauto).
  destruct (Hall i _ Hi) as (si & si' & Hfill).
  apply fillStruct_Ok in Hfill as (_ & ws & [= <-] & _ & Hfields).
  destruct (Hfields j f Hj) as (v & Hv & HR). exists v. split; [exact Hv|].
  eapply Resolved_auto_synthesized; eauto. lia. }
destruct (Hvalue i1 vs1 H1) as (v1 & -> & Hs1).
destruct (Hvalue i2 vs2 H2) as (v2 & -> & Hs2).
intros [= Heq]. subst v2. apply Hne.
unfold auto_synthesized in Hs1, Hs2. cbv zeta in Hs1, Hs2.
destruct Hk as [Hk | [Hk | [Hk | [Hk | Hk]]]]; rewrite Hk in Hs1, Hs2;
  rewrite Hs1 in Hs2.
- injection Hs2 as Hs2. apply append_inj_r in Hs2. apply append_inj_r in Hs2.
  apply itoa_inj in Hs2. lia.
- injection Hs2 as Hs2. lia.
- injection Hs2 as Hs2. lia.
- injection Hs2 as Hs2. lia.
- injection Hs2 as Hs2. lia.
Qed.
End Distinct.

(** ** More concrete runs *)

Section MoreSamples.
#[local] Existing Instance sample_host.

Lemma GenerateSlice_returns_witness :
  0 <= 3 <= Z.pos (make_limit User) /\ 3 < 2 ^ 63 /\
  (exists r s', GenerateSlice User 3 0%nat = Ok (r, s') /\ length r = Z.to_nat 3) /\
  (TypeKind User = Kind.Struct ->
   exists r s', Generate New User 3 0%nat = Ok (r, s') /\ length r = Z.to_nat 3).
Proof.
split; [split; discriminate|]. split; [reflexivity|].
apply (GenerateSlice_returns User 3 0%nat); [split; discriminate | reflexivity].
Defined.

Lemma non_struct_type_panics_witness :
  TypeKind tInt <> Kind.Struct /\
  GenerateOne sample_generator tInt 0%nat
  = Panic (ValueError "reflect.Value.NumField" (TypeKind tInt)) /\
  Builder_GenerateOne Build tInt 0%nat
  = Panic (ValueError "reflect.Value.NumField" (TypeKind tInt)) /\
  (0 < 2 <= Z.pos (make_limit tInt) ->
   Generate sample_generator tInt 2 0%nat
   = Panic (ValueError "reflect.Value.NumField" (TypeKind tInt)) /\
   Builder_Generate Build tInt 2 0%nat
   = Panic (ValueError "reflect.Value.NumField" (TypeKind tInt))).
Proof.
split; [discriminate|].
apply (non_struct_type_panics sample_generator Build tInt 2 0%nat). discriminate.
Defined.

Lemma no_settable_field_gives_zero_values_witness :
  TypeKind Hidden = Kind.Struct /\
  (forall f, f ∈ TypeFields Hidden -> CanSet f = false) /\
  0 <= 2 <= Z.pos (make_limit Hidden) /\
  Generate (SetDefaults New "a" (Some (tString, VString "x"))) Hidden 2 0%nat
  = Ok (replicate (Z.to_nat 2) (Zero Hidden), 0%nat).
Proof.
assert (Hno : forall f, f ∈ TypeFields Hidden -> CanSet f = false).
{ intros f Hf. simpl in Hf.
  repeat (apply elem_of_cons in Hf as [-> | Hf]; [reflexivity|]).
  apply elem_of_nil in Hf. contradiction. }
split; [reflexivity|]. split; [exact Hno|]. split; [split; discriminate|].
apply (no_settable_field_gives_zero_values _ Hidden 2 0%nat);
  [reflexivity | exact Hno | split; discriminate].
Defined.

Lemma instance_independent_of_count_witness :
  exists r1 r2 s1' s2',
    Generate New User 2 0%nat = Ok (r1, s1') /\
    Generate New User 3 5%nat = Ok (r2, s2') /\
    (forall (i : nat) (v1 v2 : Value),
        r1 !! i = Some v1 -> r2 !! i = Some v2 -> same_but_time User v1 v2) /\
    (forall (v1 : Value),
        r1 !! 0%nat = Some v1 ->
        exists v s3', GenerateOne New User 9%nat = Ok (v, s3') /\ same_but_time User v1 v).
Proof.
eexists _, _, _, _. split; [reflexivity|]. split; [reflexivity|].
eapply (instance_independent_of_count New User 2 3 0%nat 5%nat 9%nat); reflexivity.
Defined.

Lemma Builder_without_modifiers_witness :
  modifiers Build = [] /\
  Builder_Generate Build User 2 0%nat = Generate (gen Build) User 2 0%nat /\
  Builder_GenerateOne Build User 0%nat = GenerateOne (gen Build) User 0%nat.
Proof.
split; [reflexivity|]. apply (Builder_without_modifiers Build User 2 0%nat). reflexivity.
Defined.

Lemma Builder_Generate_after_Generate_witness :
  exists r s',
    Generate (gen (With Build (setField 0 (VInt 7)))) Person 2 0%nat = Ok (r, s') /\
    Builder_Generate (With Build (setField 0 (VInt 7))) Person 2 0%nat
    = lift (modify_all (modifiers (With Build (setField 0 (VInt 7)))) r 0) s'.
Proof.
eexists _, _. split; [reflexivity|].
apply (Builder_Generate_after_Generate (With Build (setField 0 (VInt 7))) Person 2 0%nat).
reflexivity.
Defined.

Lemma GenerateSliceWith_after_GenerateSlice_witness :
  exists r s',
    GenerateSlice tInt 3 0%nat = Ok (r, s') /\
    GenerateSliceWith tInt 3 (Some failing_modifier) 0%nat
    = lift (modify_all [failing_modifier] r 0) s'.
Proof.
eexists _, _. split; [reflexivity|].
apply (GenerateSliceWith_after_GenerateSlice tInt 3 failing_modifier 0%nat).
reflexivity.
Defined.

Lemma GenerateSliceWith_is_Builder_witness :
  TypeKind Person = Kind.Struct /\
  GenerateSliceWith Person 2 (Some (setField 0 (VInt 7))) 0%nat
  = Builder_Generate (With Build (setField 0 (VInt 7))) Person 2 0%nat.
Proof.
split; [reflexivity|].
apply (GenerateSliceWith_is_Builder Person 2 (setField 0 (VInt 7)) 0%nat). reflexivity.
Defined.

Lemma slices_negative_count_panic_witness :
  -1 < 0 /\
  GenerateSlice tInt (-1) 0%nat = Panic (RuntimeError "makeslice: len out of range") /\
  GenerateSliceWith tInt (-1) None 0%nat
  = Panic (RuntimeError "makeslice: len out of range").
Proof.
split; [reflexivity|]. apply (slices_negative_count_panic tInt (-1) None 0%nat).
reflexivity.
Defined.

Lemma User_names_NoDup : NoDup (map Name (TypeFields User)).
Proof.
apply (bool_decide_eq_true_1 (NoDup (map Name (TypeFields User)))).
vm_compute. reflexivity.
Qed.

Lemma bob_prototype_exported (k : nat) (f : StructField) (v : Value) :
  TypeFields User !! k = Some f -> bob_prototype !! k = Some v -> IsZero (Type_ f) v = false ->
  IsExported f = true.
Proof.
intros Hf Hv Hz.
do 7 (destruct k as [|k];
      [injection Hf as <-; injection Hv as <-; (reflexivity || discriminate)|]).
discriminate.
Qed.

Lemma WithDefaults_copies_nonzero_witness :
  TypeKind User = Kind.Struct /\
  length bob_prototype = length (TypeFields User) /\
  exists b',
    WithDefaults User Build (VStruct bob_prototype) = Ok b' /\
    modifiers b' = modifiers Build /\ customs (gen b') = customs (gen Build) /\
    (forall name, name ∉ map Name (TypeFields User) ->
                  defaults (gen b') !! name = defaults (gen Build) !! name) /\
    (forall (k : nat) (f : StructField) (v : Value),
        TypeFields User !! k = Some f -> bob_prototype !! k = Some v ->
        if IsZero (Type_ f) v then defaults (gen b') !! Name f = defaults (gen Build) !! Name f
        else exists x, Interface f v = Ok x /\ defaults (gen b') !! Name f = Some x).
Proof.
split; [reflexivity|]. split; [reflexivity|].
apply (WithDefaults_copies_nonzero User Build bob_prototype);
  [reflexivity | reflexivity | exact User_names_NoDup | exact bob_prototype_exported].
Defined.

Lemma WithDefaults_zero_prototype_witness :
  TypeKind User = Kind.Struct /\ WithDefaults User Build (Zero User) = Ok Build.
Proof.
split; [reflexivity|]. apply (WithDefaults_zero_prototype User Build). reflexivity.
Defined.

Lemma prototype_values_reach_instances_witness :
  exists b r s' inst,
    WithDefaults User Build (VStruct bob_prototype) = Ok b /\
    Builder_Generate b User 2 0%nat = Ok (r, s') /\ r !! 1%nat = Some inst /\
    exists ws w,
      inst = VStruct ws /\ ws !! 1%nat = Some w /\
      (IsZero tString (VString "bob") = false ->
       TypeKind (Type_ (MkField "UserName" true tString)) <> Kind.Interface ->
       w = VString "bob") /\
      (IsZero tString (VString "bob") = true -> CanSet (MkField "UserName" true tString) = true ->
       defaults (gen Build) !! Name (MkField "UserName" true tString) = None ->
       auto_synthesized (MkField "UserName" true tString) (Z.of_nat 1) w).
Proof.
eexists _, _, _, _. split; [reflexivity|]. split; [reflexivity|]. split; [reflexivity|].
eapply (prototype_values_reach_instances User Build _ bob_prototype 2 0%nat _ _
          1 _ 1 (MkField "UserName" true tString) (VString "bob"));
  try reflexivity; exact User_names_NoDup.
Defined.

Lemma constant_custom_is_default_witness :
  customs New !! "ID" = None /\
  Generate (SetCustom New "ID" (fun _ => Ok (Some (tInt, VInt 42)))) User 2 0%nat
  = Generate (SetDefaults New "ID" (Some (tInt, VInt 42))) User 2 0%nat.
Proof.
split; [reflexivity|].
apply (constant_custom_is_default New "ID" (Some (tInt, VInt 42)) User 2 0%nat).
reflexivity.
Defined.

Lemma time_field_holds_clock_reading_witness :
  exists r s' inst,
    Generate New User 2 3%nat = Ok (r, s') /\ r !! 1%nat = Some inst /\
    (3 <= s')%nat /\
    exists vs t,
      inst = VStruct vs /\ (3 <= t < s')%nat /\
      vs !! 4%nat = Some (timeValue (wall_clock t)) /\
      IsZero timeType (timeValue (wall_clock t)) = false.
Proof.
eexists _, _, _. split; [reflexivity|]. split; [reflexivity|].
eapply (time_field_holds_clock_reading New User 2 3%nat _ _ 1 _ 4
          (MkField "CreatedAt" true timeType)); reflexivity.
Defined.

Lemma auto_values_distinct_witness :
  exists r s' vs1 vs2,
    2 < 2 ^ 63 /\
    Generate New User 2 0%nat = Ok (r, s') /\
    r !! 0%nat = Some (VStruct vs1) /\ r !! 1%nat = Some (VStruct vs2) /\
    vs1 !! 1%nat <> vs2 !! 1%nat.
Proof.
eexists _, _, _, _. split; [reflexivity|]. split; [reflexivity|].
split; [reflexivity|]. split; [reflexivity|].
eapply (auto_values_distinct New User 2 0%nat _ _ 1 (MkField "UserName" true tString)
          0 1); try reflexivity; [left; reflexivity | discriminate].
Defined.

(** A prototype whose [Score] is negative zero seeds what the prototype
    with [Score] zero seeds: [UserName] alone is entered, and [Score] is
    auto-synthesized in the instances, 1.1 in the first. *)
Lemma negative_zero_seeds_no_default :
  IsZero tFloat64 (VFloat (S754_zero true)) = true /\
  WithDefaults User Build (VStruct negative_zero_prototype)
  = WithDefaults User Build (VStruct bob_prototype) /\
  exists b r s' vs,
    WithDefaults User Build (VStruct negative_zero_prototype) = Ok b /\
    defaults (gen b) !! "Score" = None /\
    Builder_Generate b User 1 0%nat = Ok (r, s') /\
    r !! 0%nat = Some (VStruct vs) /\
    vs !! 2%nat = Some (VFloat f64_1_1).
Proof.
split; [reflexivity|]. split; [reflexivity|].
eexists _, _, _, _. repeat split; reflexivity.
Qed.
End MoreSamples.
